(** * The mixer and heat-exchanger tutorial notebooks

    The repository holds two Jupyter notebooks.  Each one is a sequence of
    code cells that drive an external modelling framework: a cell builds
    model components, fixes variables, calls a solver or asserts something
    about the values it reads back.  The notebooks are embedded here as
    programs of a state-and-exception monad over the interpreter's state
    (the global names and the model object [m]); everything the framework
    computes (what a unit model declares, what the solver returns, the
    steam enthalpy function) is a field of a [Framework] record that the
    cells take as a parameter.

    Python numbers are integers of any size and binary64 floats, with
    Python's mixed arithmetic and comparisons.  The model object is the
    field [m] of the state, and the library functions that the first cell
    of a notebook imports are called directly; the names that later cells
    import are looked up where they are used.  The packages the notebooks
    import are taken to be installed.  Calls that only print ([print],
    [report], the [tee] option) are left out. *)

From Stdlib Require Import Floats ZArith.
From stdpp Require Import base option list strings pretty gmap.

#[local] Set Warnings "-inexact-float".

(** ** Python values and exceptions *)

Module Py.

(** [pyomo.opt.TerminationCondition] and [pyomo.opt.SolverStatus]: the
    notebooks name only [optimal] and [ok]; the other members are the
    ones a solver reports when it stops without converging. *)
Inductive TerminationCondition :=
  | optimal | maxIterations | maxTimeLimit | infeasible | unbounded
  | other_termination.

Inductive SolverStatus := ok | warning | error | aborted | unknown.

Record SolverResults := mkResults {
  termination_condition : TerminationCondition;
  status : SolverStatus }.

#[export] Instance TerminationCondition_eq_dec : EqDecision TerminationCondition.
Proof. solve_decision. Defined.

#[export] Instance SolverStatus_eq_dec : EqDecision SolverStatus.
Proof. solve_decision. Defined.

(** A Python number: an [int] or a [float]. *)
Inductive num :=
  | NInt (z : Z)
  | NFloat (f : float).
Arguments NFloat f%_float.

(** The objects the notebooks bind to global names.  [PModule name] is
    what [import name] binds, [PImported module name] what
    [from module import name] binds. *)
Inductive PyObj :=
  | PNone
  | PInt (z : Z)
  | PFloat (f : float)
  | PSolver (name : string)
  | PResults (r : SolverResults)
  | PModule (name : string)
  | PImported (module name : string).

(** [SolverError] is whatever the external solver call raises. *)
Inductive exn :=
  | AssertionError
  | NameError (name : string)
  | AttributeError
  | KeyError
  | TypeError
  | ValueError
  | OverflowError
  | SolverError.

Inductive Result (A : Type) :=
  | Ok (a : A)
  | Raise (e : exn).
Arguments Ok {A} a.
Arguments Raise {A} e.

#[export] Instance Result_ret : MRet Result := λ A a, Ok a.

#[export] Instance Result_bind : MBind Result := λ A B f r,
  match r with
  | Ok a => f a
  | Raise e => Raise e
  end.

Definition of_num (n : num) : PyObj :=
  match n with
  | NInt z => PInt z
  | NFloat f => PFloat f
  end.

Definition as_num (o : PyObj) : option num :=
  match o with
  | PInt z => Some (NInt z)
  | PFloat f => Some (NFloat f)
  | _ => None
  end.

(** [float(z)]: the nearest float, ties to even; an integer that rounds
    beyond the largest float raises. *)
Definition to_float (z : Z) : Result float :=
  let f := SF2Prim (binary_normalize prec emax z 0 false) in
  if is_infinity f then Raise OverflowError else Ok f.

(** Comparing an integer with a float compares their exact values; a NaN
    compares with nothing. *)
Definition compare_int_float (z : Z) (f : float) : option comparison :=
  match Prim2SF f with
  | S754_nan => None
  | S754_infinity s => Some (if s then Gt else Lt)
  | S754_zero _ => Some (z ?= 0)%Z
  | S754_finite s mf e =>
      let v := if s then Z.neg mf else Z.pos mf in
      Some (if (0 <=? e)%Z then (z ?= v * 2 ^ e)%Z else (z * 2 ^ (- e) ?= v)%Z)
  end.

Definition num_compare (a b : num) : option comparison :=
  match a, b with
  | NInt x, NInt y => Some (x ?= y)%Z
  | NInt x, NFloat y => compare_int_float x y
  | NFloat x, NInt y => CompOpp <$> compare_int_float y x
  | NFloat x, NFloat y =>
      match PrimFloat.compare x y with
      | FEq => Some Eq
      | FLt => Some Lt
      | FGt => Some Gt
      | FNotComparable => None
      end
  end.

(** [a == b], [a <= b] and [a < b] on numbers. *)
Definition num_eqb (a b : num) : bool :=
  match num_compare a b with
  | Some Eq => true
  | _ => false
  end.

Definition num_leb (a b : num) : bool :=
  match num_compare a b with
  | Some Eq | Some Lt => true
  | _ => false
  end.

Definition num_ltb (a b : num) : bool :=
  match num_compare a b with
  | Some Lt => true
  | _ => false
  end.

(** [a * b] and [a - b]: exact on two integers, in floats otherwise, the
    integer operand converted first. *)
Definition num_mul (a b : num) : Result num :=
  match a, b with
  | NInt x, NInt y => Ok (NInt (x * y))
  | NInt x, NFloat y => x' ← to_float x ; Ok (NFloat (x' * y))
  | NFloat x, NInt y => y' ← to_float y ; Ok (NFloat (x * y'))
  | NFloat x, NFloat y => Ok (NFloat (x * y))
  end.

Definition num_sub (a b : num) : Result num :=
  match a, b with
  | NInt x, NInt y => Ok (NInt (x - y))
  | NInt x, NFloat y => x' ← to_float x ; Ok (NFloat (x' - y))
  | NFloat x, NInt y => y' ← to_float y ; Ok (NFloat (x - y'))
  | NFloat x, NFloat y => Ok (NFloat (x - y))
  end.

Definition num_abs (a : num) : num :=
  match a with
  | NInt x => NInt (Z.abs x)
  | NFloat x => NFloat (PrimFloat.abs x)
  end.

(** [math.isnan(a)] and [math.isinf(a)], which convert an integer to a
    float first. *)
Definition num_isnan (a : num) : Result bool :=
  match a with
  | NInt x => _ ← to_float x ; Ok false
  | NFloat x => Ok (is_nan x)
  end.

Definition num_isinf (a : num) : Result bool :=
  match a with
  | NInt x => _ ← to_float x ; Ok false
  | NFloat x => Ok (is_infinity x)
  end.

(** [o == z] for an integer literal [z]. *)
Definition eq_int (o : PyObj) (z : Z) : bool :=
  match as_num o with
  | Some a => num_eqb a (NInt z)
  | None => false
  end.

(** [o == pytest.approx(expected, abs=tol)], as the comparison of
    [pytest.approx] with a scalar goes: equal numbers compare equal; an
    operand that is not a number compares unequal; an expected value that
    is NaN or infinite compares unequal to anything else; otherwise, with
    [abs] given and no [rel], the comparison is
    [abs(expected - o) <= tol], where a negative or NaN tolerance is a
    [ValueError]. *)
Definition approx (o : PyObj) (expected tol : num) : Result bool :=
  match as_num o with
  | None => Ok false
  | Some a =>
      if num_eqb a expected then Ok true
      else
        nan ← num_isnan (num_abs expected) ;
        if nan : bool then Ok false
        else
          inf ← num_isinf (num_abs expected) ;
          if inf : bool then Ok false
          else
            d ← num_sub expected a ;
            if num_ltb tol (NInt 0) then Raise ValueError
            else
              tnan ← num_isnan tol ;
              if tnan : bool then Raise ValueError
              else Ok (num_leb (num_abs d) tol)
  end.

Definition mul (a b : PyObj) : Result PyObj :=
  match as_num a, as_num b with
  | Some x, Some y => n ← num_mul x y ; Ok (of_num n)
  | _, _ => Raise TypeError
  end.

Definition sub (a b : PyObj) : Result PyObj :=
  match as_num a, as_num b with
  | Some x, Some y => n ← num_sub x y ; Ok (of_num n)
  | _, _ => Raise TypeError
  end.

(** [r.solver.termination_condition] and [r.solver.status]. *)
Definition solver_termination_condition (o : PyObj) : Result TerminationCondition :=
  match o with
  | PResults r => Ok (termination_condition r)
  | _ => Raise AttributeError
  end.

Definition solver_status (o : PyObj) : Result SolverStatus :=
  match o with
  | PResults r => Ok (status r)
  | _ => Raise AttributeError
  end.

Definition is_imported (module name : string) (o : PyObj) : bool :=
  match o with
  | PImported module' name' =>
      bool_decide (module' = module) && bool_decide (name' = name)
  | _ => false
  end.

(** [cls.optimal] and [cls.ok], for the object bound to the name of the
    enumeration, and [pytest.approx] for the one bound to [pytest]. *)
Definition dot_optimal (cls : PyObj) : Result TerminationCondition :=
  if is_imported "pyomo.opt" "TerminationCondition" cls
  then Ok optimal else Raise AttributeError.

Definition dot_ok (cls : PyObj) : Result SolverStatus :=
  if is_imported "pyomo.opt" "SolverStatus" cls
  then Ok ok else Raise AttributeError.

Definition dot_approx (pytest : PyObj) : Result unit :=
  match pytest with
  | PModule name => if bool_decide (name = "pytest") then Ok tt else Raise AttributeError
  | _ => Raise AttributeError
  end.

End Py.
Export Py.

(** ** The model object *)

Module Pyomo.

(** A component is addressed by its path from [m]: the attribute names,
    and each index as an element of its own, written in brackets, so
    [m.fs.mixer_1.inlet_1.flow_mol[0]] is
    [["fs"; "mixer_1"; "inlet_1"; "flow_mol"; "[0]"]]. *)
Abbreviation path := (list string).

Definition is_index (s : string) : bool := String.prefix "[" s.

(** A variable: its current value, if it has one, and its fixed flag. *)
Record VarData := mkVar {
  value : option num;
  fixed : bool }.

(** The model as the notebooks see it: the variables by path, and the
    names of the constraints, which are counted and never evaluated here.
    A component is there when a variable lies under its path.  A port
    member and the state variable it refers to are one variable in the
    framework; the notebooks never address a variable by both names, so
    each path stands for a variable of its own. *)
Record ConcreteModel := mkModel {
  vars : gmap path VarData;
  constraints : gset path }.

Definition ConcreteModel_new : ConcreteModel := mkModel ∅ ∅.

(** [under p q]: the variable [q] belongs to the component [p]. *)
Definition under (p q : path) : bool := bool_decide (p `prefix_of` q).

Definition has_component (p : path) (m : ConcreteModel) : bool :=
  bool_decide (set_Exists (λ q, under p q = true) (dom (vars m))).

(** Walking down a path from the component [seen]: the first step that
    leads nowhere raises, a [KeyError] when it is an index and an
    [AttributeError] when it is an attribute. *)
Fixpoint missing_step (seen rest : path) (m : ConcreteModel) : option exn :=
  match rest with
  | [] => None
  | s :: rest =>
      if has_component (seen ++ [s]) m
      then missing_step (seen ++ [s]) rest m
      else Some (if is_index s then KeyError else AttributeError)
  end.

Definition lookup_error (p : path) (m : ConcreteModel) : option exn :=
  missing_step [] p m.

(** Evaluating the expression [m.p] for its component. *)
Definition find_component (p : path) (m : ConcreteModel) : Result unit :=
  match lookup_error p m with
  | Some e => Raise e
  | None => Ok tt
  end.

Definition set_fixed (p : path) (v : num) (q : path) (d : VarData) : option VarData :=
  Some (if under p q then mkVar (Some v) true else d).

Definition set_unfixed (p : path) (q : path) (d : VarData) : option VarData :=
  Some (if under p q then mkVar (value d) false else d).

(** [c.fix(v)]: every variable of the component [c] (the variable itself,
    or each member of an indexed one) takes the value [v] and is fixed. *)
Definition fix_ (p : path) (v : num) (m : ConcreteModel) : Result ConcreteModel :=
  match lookup_error p m with
  | Some e => Raise e
  | None => Ok (mkModel (map_imap (set_fixed p v) (vars m)) (constraints m))
  end.

(** A run of [fix] calls, in order; the first one that fails stops it. *)
Fixpoint fix_all (fs : list (path * num)) (m : ConcreteModel) : Result ConcreteModel :=
  match fs with
  | [] => Ok m
  | (p, v) :: fs =>
      match fix_ p v m with
      | Ok m' => fix_all fs m'
      | Raise e => Raise e
      end
  end.

(** [c.unfix()]. *)
Definition unfix (p : path) (m : ConcreteModel) : Result ConcreteModel :=
  match lookup_error p m with
  | Some e => Raise e
  | None => Ok (mkModel (map_imap (set_unfixed p) (vars m)) (constraints m))
  end.

(** [c.value]: the stored number, or [None]; a component that is not a
    single variable has no such attribute. *)
Definition dot_value (p : path) (m : ConcreteModel) : Result PyObj :=
  match vars m !! p with
  | Some d => Ok (from_option of_num PNone (value d))
  | None => Raise (default AttributeError (lookup_error p m))
  end.

(** [value(c)]: raises on a variable without a value, and on a component
    that is not a single variable. *)
Definition pyo_value (p : path) (m : ConcreteModel) : Result PyObj :=
  match vars m !! p with
  | Some d =>
      match value d with
      | Some v => Ok (of_num v)
      | None => Raise ValueError
      end
  | None => Raise (default TypeError (lookup_error p m))
  end.

(** [reads m p v]: the variable [p] holds the number [v]; [within m p e tol]:
    it holds a number that compares equal to
    [pytest.approx(e, abs=tol)]. *)
Definition reads (m : ConcreteModel) (p : path) (v : num) : Prop :=
  ∃ d, vars m !! p = Some d ∧ value d = Some v.

Definition within (m : ConcreteModel) (p : path) (expected tol : num) : Prop :=
  ∃ v, reads m p v ∧ approx (of_num v) expected tol = Ok true.

Definition is_free (blk : path) (q : path) (d : VarData) : bool :=
  under blk q && negb (fixed d).

(** Modelled from the spec: the external utility [degrees_of_freedom],
    described as the count of unknowns minus constraints in the assembled
    equation system; here over the components of the block [blk]. *)
Definition degrees_of_freedom (blk : path) (m : ConcreteModel) : Z :=
  Z.of_nat (size (filter (λ kv, is_free blk kv.1 kv.2 = true) (vars m)))
  - Z.of_nat (size (filter (λ c, under blk c = true) (constraints m))).

(** The number of unknowns of the block [blk] that lie in the component
    [p]: what fixing [p] takes out of the count. *)
Definition free_under (blk p : path) (m : ConcreteModel) : nat :=
  size (filter (λ kv, under p kv.1 = true)
          (filter (λ kv, is_free blk kv.1 kv.2 = true) (vars m))).

(** [steady blk fs m]: each component that [fs] fixes holds exactly one
    unknown of [blk], as in a steady-state model on which none of them is
    fixed yet. *)
Definition steady (blk : path) (fs : list (path * num)) (m : ConcreteModel) : Prop :=
  Forall (λ p, free_under blk p m = 1%nat) fs.*1.

(** Two components with no variable in common: neither path extends the
    other. *)
Definition apart (p1 p2 : path) : bool :=
  negb (under p1 p2) && negb (under p2 p1).

Fixpoint all_apart (ps : list path) : bool :=
  match ps with
  | [] => true
  | p :: ps => forallb (apart p) ps && all_apart ps
  end.

End Pyomo.
Export Pyomo.

(** ** The framework the notebooks call *)

Module Idaes.

(** [idaes.models.unit_models.MomentumMixingType], the two members the
    mixer notebook selects. *)
Inductive MomentumMixingType := minimize | equality.

Record MixerConfig := mkMixerConfig {
  property_package : path;
  num_inlets : option nat;
  inlet_list : option (list string);
  momentum_mixing_type : MomentumMixingType }.

Inductive DeltaTemperatureCallback := delta_temperature_amtd_callback.

(** [sides] holds the keyword arguments named after the two sides, each
    with its property package. *)
Record HeatExchangerConfig := mkHeatExchangerConfig {
  delta_temperature_callback : DeltaTemperatureCallback;
  hot_side_name : string;
  cold_side_name : string;
  sides : list (string * path) }.

(** The constructor calls of the notebooks. *)
Inductive Component :=
  | FlowsheetBlock (dynamic : bool)
  | BTXParameterBlock (valid_phase activity_coeff_model : string)
  | Iapws95ParameterBlock
  | GenericParameterBlock (configuration : string)
  | Mixer (config : MixerConfig)
  | HeatExchanger (config : HeatExchangerConfig).

(** What the notebooks leave to the framework: [declare c p] is the
    assignment [m.p = c], which builds the component's variables and
    constraints; [initialize p] is [m.p.initialize(...)]; [solver name blk]
    is [SolverFactory(name).solve(blk)], which writes the values it found
    into the model and returns the results object; [htpx T P] is the steam
    enthalpy function of the IAPWS package, called on a temperature in K
    and a pressure in Pa.  Each of them may raise. *)
Record Framework := mkFramework {
  declare : Component → path → ConcreteModel → Result ConcreteModel;
  initialize : path → ConcreteModel → Result ConcreteModel;
  solver : string → path → ConcreteModel → Result (ConcreteModel * SolverResults);
  htpx : num → num → Result num }.

(** A solver that writes only into the block it is handed: a variable
    outside the block keeps its value and its fixed flag. *)
Definition solver_frame (fw : Framework) : Prop :=
  ∀ name blk m m' r, solver fw name blk m = Ok (m', r) →
  ∀ q, under blk q = false → vars m' !! q = vars m !! q.

End Idaes.
Export Idaes.

(** ** The interpreter state and the cell monad *)

Module Notebook.

(** The model object bound to [m] and the other global names. *)
Record Kernel := mkKernel {
  m : ConcreteModel;
  globals : gmap string PyObj }.

Definition NB (A : Type) : Type := Kernel → Result (A * Kernel).

#[export] Instance NB_ret : MRet NB := λ A a k, Ok (a, k).

#[export] Instance NB_bind : MBind NB := λ A B f c k,
  match c k with
  | Ok (a, k') => f a k'
  | Raise e => Raise e
  end.

Definition lift {A} (r : Result A) : NB A := λ k,
  match r with
  | Ok a => Ok (a, k)
  | Raise e => Raise e
  end.

(** Reading a global name that no cell has bound yet. *)
Definition load (name : string) : NB PyObj := λ k,
  match globals k !! name with
  | Some o => Ok (o, k)
  | None => Raise (NameError name)
  end.

Definition store (name : string) (o : PyObj) : NB unit := λ k,
  Ok (tt, mkKernel (m k) (<[name := o]> (globals k))).

(** [from module import name, ...] and [import module as name]. *)
Fixpoint import_from (module : string) (names : list string) : NB unit :=
  match names with
  | [] => mret tt
  | name :: names => store name (PImported module name) ;; import_from module names
  end.

Definition import_as (module name : string) : NB unit :=
  store name (PModule module).

Definition read_model {A} (f : ConcreteModel → Result A) : NB A := λ k,
  match f (m k) with
  | Ok a => Ok (a, k)
  | Raise e => Raise e
  end.

Definition update_model (f : ConcreteModel → Result ConcreteModel) : NB unit := λ k,
  match f (m k) with
  | Ok m' => Ok (tt, mkKernel m' (globals k))
  | Raise e => Raise e
  end.

Definition assert_ (b : bool) : NB unit :=
  if b then mret tt else lift (Raise AssertionError).

(** [assert name == z] for a global name and an integer literal. *)
Definition assert_eq_int (name : string) (z : Z) : NB unit :=
  d ← load name ;
  assert_ (eq_int d z).

(** [assert v == pytest.approx(expected, abs=tol)], the left operand [v]
    already evaluated. *)
Definition assert_approx (v : PyObj) (expected tol : num) : NB unit :=
  pytest ← load "pytest" ;
  lift (dot_approx pytest) ;;
  b ← lift (approx v expected tol) ;
  assert_ b.

(** The pair of assertions that follows a solve in the testing cells,
    on the results object bound to [name]:
    [assert name.solver.termination_condition == TerminationCondition.optimal]
    and [assert name.solver.status == SolverStatus.ok]. *)
Definition assert_optimal_ok (name : string) : NB unit :=
  r ← load name ;
  tc ← lift (solver_termination_condition r) ;
  cls ← load "TerminationCondition" ;
  o ← lift (dot_optimal cls) ;
  assert_ (bool_decide (tc = o)) ;;
  r ← load name ;
  st ← lift (solver_status r) ;
  cls ← load "SolverStatus" ;
  o ← lift (dot_ok cls) ;
  assert_ (bool_decide (st = o)).

(** [SolverFactory(name)]. *)
Definition SolverFactory (name : string) : PyObj := PSolver name.

(** [opt.solve(blk)]: the model takes the values the solver writes and the
    call returns the results object. *)
Definition solve (fw : Framework) (opt : PyObj) (blk : path) : NB PyObj := λ k,
  match opt with
  | PSolver name =>
      match solver fw name blk (m k) with
      | Ok (m', r) => Ok (PResults r, mkKernel m' (globals k))
      | Raise e => Raise e
      end
  | _ => Raise AttributeError
  end.

(** Running the cells from top to bottom, stopping at the first exception. *)
Definition run_all (cells : list (NB unit)) : NB unit :=
  foldr (λ c rest, c ;; rest) (mret tt) cells.

Definition fresh_kernel : Kernel := mkKernel ConcreteModel_new ∅.

(** What a run shows from outside: the exception, if one was raised, and
    the state it ended in otherwise. *)
Definition raised {A} (r : Result A) : option exn :=
  match r with
  | Ok _ => None
  | Raise e => Some e
  end.

Definition final {A} (r : Result (A * Kernel)) : option Kernel :=
  match r with
  | Ok (_, k) => Some k
  | Raise _ => None
  end.

(** A results object that reports convergence. *)
Definition converged (r : SolverResults) : bool :=
  bool_decide (termination_condition r = optimal) && bool_decide (status r = ok).

End Notebook.
Export Notebook.

(** ** The heat-exchanger notebook *)

Module HeatExchangerNotebook.

Definition heat_exchanger : path := ["fs"; "heat_exchanger"].

Definition heat_exchanger_config : HeatExchangerConfig :=
  mkHeatExchangerConfig delta_temperature_amtd_callback "shell" "tube"
    [("shell", ["fs"; "properties_shell"]); ("tube", ["fs"; "properties_tube"])].

Section Cells.
Variable fw : Framework.

(** The imports, [m = ConcreteModel()], the flowsheet and the two
    property packages. *)
Definition cell_flowsheet : NB unit :=
  import_from "pyomo.environ"
    ["ConcreteModel"; "SolverFactory"; "Constraint"; "value"; "units"] ;;
  import_as "idaes.logger" "idaeslog" ;;
  import_from "idaes.core" ["FlowsheetBlock"] ;;
  import_from "idaes.models.properties.activity_coeff_models" ["BTX_activity_coeff_VLE"] ;;
  import_from "idaes.models.properties" ["iapws95"] ;;
  import_from "idaes.models.properties.iapws95" ["htpx"] ;;
  import_from "idaes.models.properties.modular_properties" ["GenericParameterBlock"] ;;
  import_from "idaes.models.properties.modular_properties.examples.BT_ideal"
    ["configuration"] ;;
  import_from "idaes.core.util.model_statistics" ["degrees_of_freedom"] ;;
  import_from "idaes.models.unit_models.heat_exchanger"
    ["HeatExchanger"; "delta_temperature_amtd_callback"] ;;
  update_model (λ _, Ok ConcreteModel_new) ;;
  update_model (declare fw (FlowsheetBlock false) ["fs"]) ;;
  update_model (declare fw Iapws95ParameterBlock ["fs"; "properties_shell"]) ;;
  update_model (declare fw (GenericParameterBlock "BT_ideal") ["fs"; "properties_tube"]).

(** [m.fs.heat_exchanger = HeatExchanger(...)] and the first count. *)
Definition cell_heat_exchanger : NB unit :=
  update_model (declare fw (HeatExchanger heat_exchanger_config) heat_exchanger) ;;
  dof ← read_model (λ m, Ok (degrees_of_freedom [] m)) ;
  store "DOF_initial" (PInt dof).

(** [assert DOF_initial == 10] *)
Definition cell_test_DOF_initial : NB unit :=
  assert_eq_int "DOF_initial" 10.

(** The shell inlet: flow, pressure and the enthalpy [h] of steam at
    450 K. *)
Definition shell_inlet_fixes (h : num) : list (path * num) :=
  [ (heat_exchanger ++ ["shell_inlet"; "flow_mol"], NInt 100);
    (heat_exchanger ++ ["shell_inlet"; "pressure"], NInt 101325);
    (heat_exchanger ++ ["shell_inlet"; "enth_mol"], h) ].

(** [h = htpx(450*units.K, P = 101325*units.Pa)], the three [fix] calls,
    the last one on the number just bound to [h], and the count, bound to
    [DOF_initial] again. *)
Definition cell_fix_shell_inlet : NB unit :=
  h ← lift (htpx fw (NInt 450) (NInt 101325)) ;
  store "h" (of_num h) ;;
  update_model (fix_all (shell_inlet_fixes h)) ;;
  dof ← read_model (λ m, Ok (degrees_of_freedom [] m)) ;
  store "DOF_initial" (PInt dof).

(** The tube inlet: flow, composition, pressure and temperature. *)
Definition tube_inlet_fixes : list (path * num) :=
  [ (heat_exchanger ++ ["tube_inlet"; "flow_mol"], NInt 250);
    (heat_exchanger ++ ["tube_inlet"; "mole_frac_comp"; "[0,benzene]"], NFloat 0.4);
    (heat_exchanger ++ ["tube_inlet"; "mole_frac_comp"; "[0,toluene]"], NFloat 0.6);
    (heat_exchanger ++ ["tube_inlet"; "pressure"], NInt 101325);
    (heat_exchanger ++ ["tube_inlet"; "temperature"; "[0]"], NInt 350) ].

Definition cell_fix_tube_inlet : NB unit :=
  update_model (fix_all tube_inlet_fixes) ;;
  dof ← read_model (λ m, Ok (degrees_of_freedom [] m)) ;
  store "DOF_final" (PInt dof).

(** Option 1: area and overall heat transfer coefficient. *)
Definition option1_fixes : list (path * num) :=
  [ (heat_exchanger ++ ["area"], NInt 50);
    (heat_exchanger ++ ["overall_heat_transfer_coefficient"; "[0]"], NInt 500) ].

Definition cell_option1_fix : NB unit :=
  update_model (fix_all option1_fixes) ;;
  dof ← read_model (λ m, Ok (degrees_of_freedom [] m)) ;
  store "DOF_final" (PInt dof).

(** Everything the notebook fixes before its first solve. *)
Definition option1_fixes_all (h : num) : list (path * num) :=
  shell_inlet_fixes h ++ tube_inlet_fixes ++ option1_fixes.

(** [assert DOF_final == 0] *)
Definition cell_test_DOF_final : NB unit :=
  assert_eq_int "DOF_final" 0.

(** Initialization and the first solve, kept in [solve_status]. *)
Definition cell_option1_solve : NB unit :=
  update_model (initialize fw heat_exchanger) ;;
  store "opt" (SolverFactory "ipopt") ;;
  opt ← load "opt" ;
  r ← solve fw opt [] ;
  store "solve_status" r.

(** The testing cell after the first solve: its two imports, the
    assertions on [solve_status] and the two temperatures. *)
Definition cell_option1_test : NB unit :=
  import_from "pyomo.opt" ["TerminationCondition"; "SolverStatus"] ;;
  import_as "pytest" "pytest" ;;
  assert_optimal_ok "solve_status" ;;
  t ← read_model (pyo_value (heat_exchanger ++ ["shell"; "properties_out"; "[0]"; "temperature"])) ;
  assert_approx t (NFloat 373.13) (NFloat 1e-2) ;;
  t ← read_model (pyo_value (heat_exchanger ++ ["tube"; "properties_out"; "[0]"; "temperature"])) ;
  assert_approx t (NFloat 369.24) (NFloat 1e-2).

(** Option 2: the area is freed and the shell outlet enthalpy fixed.  The
    method [fix] is looked up before its argument is evaluated. *)
Definition cell_option2_fix : NB unit :=
  update_model (unfix (heat_exchanger ++ ["area"])) ;;
  read_model (find_component (heat_exchanger ++ ["shell_outlet"; "enth_mol"])) ;;
  h ← lift (htpx fw (NInt 360) (NInt 101325)) ;
  update_model (fix_ (heat_exchanger ++ ["shell_outlet"; "enth_mol"]) h).

(** The second solve, kept in [result]. *)
Definition cell_option2_solve : NB unit :=
  opt ← load "opt" ;
  r ← solve fw opt [] ;
  store "result" r.

(** The testing cell after the second solve; it imports nothing. *)
Definition cell_option2_test : NB unit :=
  assert_optimal_ok "solve_status" ;;
  a ← read_model (pyo_value (heat_exchanger ++ ["area"])) ;
  assert_approx a (NFloat 200.26) (NFloat 1e-2) ;;
  t ← read_model (pyo_value (heat_exchanger ++ ["tube"; "properties_out"; "[0]"; "temperature"])) ;
  assert_approx t (NFloat 371.27) (NFloat 1e-2).

Definition notebook : list (NB unit) :=
  [ cell_flowsheet; cell_heat_exchanger; cell_test_DOF_initial;
    cell_fix_shell_inlet; cell_fix_tube_inlet; cell_option1_fix;
    cell_test_DOF_final; cell_option1_solve; cell_option1_test;
    cell_option2_fix; cell_option2_solve; cell_option2_test ].

End Cells.

End HeatExchangerNotebook.

(** ** The mixer notebook *)

Module MixerNotebook.

Definition mixer_1 : path := ["fs"; "mixer_1"].
Definition mixer_2 : path := ["fs"; "mixer_2"].

Definition mixer_1_config : MixerConfig :=
  mkMixerConfig ["fs"; "properties"] (Some 2%nat) None minimize.

Definition mixer_2_config : MixerConfig :=
  mkMixerConfig ["fs"; "properties"] None (Some ["benzene_inlet"; "toluene_inlet"]) equality.

Section Cells.
Variable fw : Framework.

(** The imports, [m = ConcreteModel()], the flowsheet and the property
    package. *)
Definition cell_flowsheet : NB unit :=
  import_from "pyomo.environ" ["ConcreteModel"; "SolverFactory"; "value"] ;;
  import_from "idaes.core" ["FlowsheetBlock"] ;;
  import_from "idaes.models.unit_models" ["Mixer"; "MomentumMixingType"] ;;
  import_as "idaes.logger" "idaeslog" ;;
  import_from "idaes.models.properties.activity_coeff_models" ["BTX_activity_coeff_VLE"] ;;
  import_from "idaes.core.util.model_statistics" ["degrees_of_freedom"] ;;
  update_model (λ _, Ok ConcreteModel_new) ;;
  update_model (declare fw (FlowsheetBlock false) ["fs"]) ;;
  update_model (declare fw (BTXParameterBlock "Liq" "Ideal") ["fs"; "properties"]).

(** Case 1: [m.fs.mixer_1 = Mixer(...)] and the first count. *)
Definition cell_mixer_1 : NB unit :=
  update_model (declare fw (Mixer mixer_1_config) mixer_1) ;;
  dof ← read_model (λ m, Ok (degrees_of_freedom [] m)) ;
  store "DOF_initial" (PInt dof).

(** [assert DOF_initial == 10] *)
Definition cell_test_DOF_initial : NB unit :=
  assert_eq_int "DOF_initial" 10.

(** The inlet conditions of case 1, on [inlet_1] and [inlet_2]. *)
Definition case1_fixes : list (path * num) :=
  [ (mixer_1 ++ ["inlet_1"; "flow_mol"], NInt 100);
    (mixer_1 ++ ["inlet_1"; "mole_frac_comp"; "[0,benzene]"], NInt 1);
    (mixer_1 ++ ["inlet_1"; "mole_frac_comp"; "[0,toluene]"], NInt 0);
    (mixer_1 ++ ["inlet_1"; "pressure"], NInt 101325);
    (mixer_1 ++ ["inlet_1"; "temperature"], NInt 353);
    (mixer_1 ++ ["inlet_2"; "flow_mol"], NInt 100);
    (mixer_1 ++ ["inlet_2"; "mole_frac_comp"; "[0,benzene]"], NInt 0);
    (mixer_1 ++ ["inlet_2"; "mole_frac_comp"; "[0,toluene]"], NInt 1);
    (mixer_1 ++ ["inlet_2"; "pressure"], NInt 202650);
    (mixer_1 ++ ["inlet_2"; "temperature"], NInt 356) ].

Definition cell_fix_case1 : NB unit :=
  update_model (fix_all case1_fixes) ;;
  dof ← read_model (λ m, Ok (degrees_of_freedom [] m)) ;
  store "DOF_final" (PInt dof).

(** [assert DOF_final == 0] *)
Definition cell_test_DOF_final : NB unit :=
  assert_eq_int "DOF_final" 0.

Definition cell_initialize_1 : NB unit :=
  update_model (initialize fw mixer_1).

(** The case 1 solve, on the whole model [m]. *)
Definition cell_solve_1 : NB unit :=
  store "opt" (SolverFactory "ipopt") ;;
  opt ← load "opt" ;
  r ← solve fw opt [] ;
  store "result" r.

(** The testing cell after each of the two solves: its import and the
    assertions on [result]. *)
Definition cell_test_solver : NB unit :=
  import_from "pyomo.opt" ["TerminationCondition"; "SolverStatus"] ;;
  assert_optimal_ok "result".

(** The energy balance quantities of case 1. *)
Definition cell_energy_balance : NB unit :=
  v ← read_model (dot_value (mixer_1 ++ ["inlet_1"; "flow_mol"; "[0]"])) ;
  store "molflow_1" v ;;
  v ← read_model (dot_value (mixer_1 ++ ["inlet_2"; "flow_mol"; "[0]"])) ;
  store "molflow_2" v ;;
  v ← read_model (dot_value (mixer_1 ++ ["inlet_1"; "mole_frac_comp"; "[0,benzene]"])) ;
  store "benzene_1" v ;;
  v ← read_model (dot_value (mixer_1 ++ ["inlet_2"; "mole_frac_comp"; "[0,toluene]"])) ;
  store "toluene_2" v ;;
  f ← load "molflow_1" ;
  h ← read_model (dot_value (mixer_1 ++ ["inlet_1_state"; "[0]"; "enth_mol_phase"; "[Liq]"])) ;
  v ← lift (mul f h) ;
  store "total_enthalpy_in1" v ;;
  f ← load "molflow_2" ;
  h ← read_model (dot_value (mixer_1 ++ ["inlet_2_state"; "[0]"; "enth_mol_phase"; "[Liq]"])) ;
  v ← lift (mul f h) ;
  store "total_enthalpy_in2" v ;;
  v ← read_model (dot_value (mixer_1 ++ ["mixed_state"; "[0]"; "enth_mol_phase"; "[Liq]"])) ;
  store "molar_enthalpy_out" v ;;
  v ← read_model (dot_value (mixer_1 ++ ["outlet"; "flow_mol"; "[0]"])) ;
  store "mole_flow_out" v ;;
  f ← load "mole_flow_out" ;
  h ← load "molar_enthalpy_out" ;
  v ← lift (mul f h) ;
  store "total_enthalpy_out" v.

(** The checks on the case 1 results, after [import pytest]. *)
Definition cell_test_results_1 : NB unit :=
  import_as "pytest" "pytest" ;;
  v ← load "mole_flow_out" ;
  assert_approx v (NInt 200) (NFloat 1e-3) ;;
  v ← read_model (dot_value (mixer_1 ++ ["outlet"; "mole_frac_comp"; "[0,benzene]"])) ;
  assert_approx v (NFloat 0.5) (NFloat 1e-3) ;;
  v ← read_model (dot_value (mixer_1 ++ ["outlet"; "mole_frac_comp"; "[0,toluene]"])) ;
  assert_approx v (NFloat 0.5) (NFloat 1e-3) ;;
  v ← read_model (dot_value (mixer_1 ++ ["outlet"; "temperature"; "[0]"])) ;
  assert_approx v (NFloat 354.61) (NFloat 1e-2) ;;
  v ← read_model (dot_value (mixer_1 ++ ["outlet"; "pressure"; "[0]"])) ;
  assert_approx v (NInt 101325) (NInt 1) ;;
  hout ← load "total_enthalpy_out" ;
  hin1 ← load "total_enthalpy_in1" ;
  d ← lift (sub hout hin1) ;
  hin2 ← load "total_enthalpy_in2" ;
  d ← lift (sub d hin2) ;
  assert_approx d (NInt 0) (NFloat 1e-2).

(** Case 2: [m.fs.mixer_2 = Mixer(...)] with named inlets. *)
Definition cell_mixer_2 : NB unit :=
  update_model (declare fw (Mixer mixer_2_config) mixer_2).

Definition cell_DOF_init : NB unit :=
  dof ← read_model (λ m, Ok (degrees_of_freedom mixer_2 m)) ;
  store "DOF_init" (PInt dof).

(** [assert DOF_init == 9] *)
Definition cell_test_DOF_init : NB unit :=
  assert_eq_int "DOF_init" 9.

(** The inlet conditions of case 2: the pressure is given for
    [benzene_inlet] only. *)
Definition case2_fixes : list (path * num) :=
  [ (mixer_2 ++ ["benzene_inlet"; "flow_mol"], NInt 100);
    (mixer_2 ++ ["benzene_inlet"; "mole_frac_comp"; "[0,benzene]"], NInt 1);
    (mixer_2 ++ ["benzene_inlet"; "mole_frac_comp"; "[0,toluene]"], NInt 0);
    (mixer_2 ++ ["benzene_inlet"; "pressure"], NInt 101325);
    (mixer_2 ++ ["benzene_inlet"; "temperature"], NInt 353);
    (mixer_2 ++ ["toluene_inlet"; "flow_mol"], NInt 100);
    (mixer_2 ++ ["toluene_inlet"; "mole_frac_comp"; "[0,benzene]"], NInt 0);
    (mixer_2 ++ ["toluene_inlet"; "mole_frac_comp"; "[0,toluene]"], NInt 1);
    (mixer_2 ++ ["toluene_inlet"; "temperature"], NInt 356) ].

Definition cell_fix_case2 : NB unit :=
  update_model (fix_all case2_fixes) ;;
  dof ← read_model (λ m, Ok (degrees_of_freedom mixer_2 m)) ;
  store "DOF_final" (PInt dof).

Definition cell_initialize_2 : NB unit :=
  update_model (initialize fw mixer_2).

(** The case 2 solve, on the block [m.fs.mixer_2]. *)
Definition cell_solve_2 : NB unit :=
  store "opt" (SolverFactory "ipopt") ;;
  opt ← load "opt" ;
  r ← solve fw opt mixer_2 ;
  store "result" r.

(** The checks on the case 2 results; the cell imports nothing. *)
Definition cell_test_results_2 : NB unit :=
  v ← read_model (dot_value (mixer_2 ++ ["outlet"; "flow_mol"; "[0]"])) ;
  assert_approx v (NInt 200) (NFloat 1e-2) ;;
  v ← read_model (dot_value (mixer_2 ++ ["outlet"; "mole_frac_comp"; "[0,benzene]"])) ;
  assert_approx v (NFloat 0.5) (NFloat 1e-3) ;;
  v ← read_model (dot_value (mixer_2 ++ ["outlet"; "mole_frac_comp"; "[0,toluene]"])) ;
  assert_approx v (NFloat 0.5) (NFloat 1e-3) ;;
  v ← read_model (dot_value (mixer_2 ++ ["outlet"; "temperature"; "[0]"])) ;
  assert_approx v (NFloat 354.61) (NFloat 1e-2) ;;
  v ← read_model (dot_value (mixer_2 ++ ["outlet"; "pressure"; "[0]"])) ;
  assert_approx v (NInt 101325) (NInt 1).

Definition notebook : list (NB unit) :=
  [ cell_flowsheet; cell_mixer_1; cell_test_DOF_initial; cell_fix_case1;
    cell_test_DOF_final; cell_initialize_1; cell_solve_1; cell_test_solver;
    cell_energy_balance; cell_test_results_1;
    cell_mixer_2; cell_DOF_init; cell_test_DOF_init; cell_fix_case2;
    cell_initialize_2; cell_solve_2; cell_test_solver; cell_test_results_2 ].

End Cells.

End MixerNotebook.

(** ** A stand-in framework for running the notebooks

    The cells can be run once the [Framework] fields are given.  The
    stand-in below is not the framework: it declares, for each unit model,
    the variables the notebooks touch and as many constraint names as
    leave the count of unknowns the notebooks assert, and its solver
    writes a prepared list of values into the free variables of the block
    it is handed.  It serves to run the cells on concrete states. *)

Module StandIn.

Definition free_var : VarData := mkVar None false.

Definition port (p : path) (members : list path) : list (path * VarData) :=
  (λ mem, (p ++ mem, free_var)) <$> members.

Definition stream_members : list path :=
  [ ["flow_mol"; "[0]"]; ["mole_frac_comp"; "[0,benzene]"];
    ["mole_frac_comp"; "[0,toluene]"]; ["pressure"; "[0]"];
    ["temperature"; "[0]"] ].

Definition steam_members : list path :=
  [ ["flow_mol"; "[0]"]; ["pressure"; "[0]"]; ["enth_mol"; "[0]"] ].

(** The inlets of a mixer: the names of [inlet_list], or [inlet_1],
    [inlet_2], ... when only their number is given. *)
Definition inlet_names (c : MixerConfig) : list string :=
  match inlet_list c with
  | Some names => names
  | None =>
      (λ i, "inlet_" +:+ pretty (S i)) <$> seq 0 (default 2%nat (num_inlets c))
  end.

Definition mixer_vars (p : path) (c : MixerConfig) : list (path * VarData) :=
  (inlet_names c ≫= λ n, port (p ++ [n]) stream_members)
  ++ port (p ++ ["outlet"]) stream_members
  ++ ((λ n, (p ++ [n +:+ "_state"; "[0]"; "enth_mol_phase"; "[Liq]"], free_var))
        <$> inlet_names c)
  ++ [ (p ++ ["mixed_state"; "[0]"; "enth_mol_phase"; "[Liq]"], free_var) ].

Definition mixer_constraints (p : path) (c : MixerConfig) : list path :=
  ((λ n, p ++ [n +:+ "_state"; "[0]"; "eq_enth_mol_phase"]) <$> inlet_names c)
  ++ [ p ++ ["mixed_state"; "[0]"; "eq_enth_mol_phase"];
       p ++ ["material_mixing_equations"; "[0,benzene]"];
       p ++ ["material_mixing_equations"; "[0,toluene]"];
       p ++ ["mixed_state"; "[0]"; "sum_mole_frac"];
       p ++ ["enthalpy_mixing_equations"; "[0]"] ]
  ++ match momentum_mixing_type c with
     | minimize => [ p ++ ["mixture_pressure"; "[0]"] ]
     | equality =>
         (λ n, p ++ ["pressure_equality_constraints"; "[0," +:+ n +:+ "]"])
           <$> inlet_names c
     end.

Definition heat_exchanger_vars (p : path) (c : HeatExchangerConfig)
    : list (path * VarData) :=
  port (p ++ [hot_side_name c +:+ "_inlet"]) steam_members
  ++ port (p ++ [hot_side_name c +:+ "_outlet"]) steam_members
  ++ port (p ++ [cold_side_name c +:+ "_inlet"]) stream_members
  ++ port (p ++ [cold_side_name c; "properties_out"; "[0]"])
       [ ["flow_mol"]; ["mole_frac_comp"; "benzene"]; ["mole_frac_comp"; "toluene"];
         ["pressure"]; ["temperature"] ]
  ++ [ (p ++ [hot_side_name c; "properties_out"; "[0]"; "temperature"], free_var);
       (p ++ ["area"], free_var);
       (p ++ ["overall_heat_transfer_coefficient"; "[0]"], free_var);
       (p ++ ["heat_duty"; "[0]"], free_var);
       (p ++ ["delta_temperature"; "[0]"], free_var) ].

Definition heat_exchanger_constraints (p : path) (c : HeatExchangerConfig)
    : list path :=
  [ p ++ [hot_side_name c; "material_balances"; "[0]"];
    p ++ [hot_side_name c; "enthalpy_balances"; "[0]"];
    p ++ [hot_side_name c; "pressure_balance"; "[0]"];
    p ++ [hot_side_name c; "properties_out"; "[0]"; "eq_temperature"];
    p ++ [cold_side_name c; "material_balances"; "[0,benzene]"];
    p ++ [cold_side_name c; "material_balances"; "[0,toluene]"];
    p ++ [cold_side_name c; "properties_out"; "[0]"; "sum_mole_frac"];
    p ++ [cold_side_name c; "enthalpy_balances"; "[0]"];
    p ++ [cold_side_name c; "pressure_balance"; "[0]"];
    p ++ ["delta_temperature_eq"; "[0]"];
    p ++ ["heat_transfer_equation"; "[0]"] ].

Definition add (vs : list (path * VarData)) (cs : list path) (m : ConcreteModel)
    : ConcreteModel :=
  mkModel (list_to_map vs ∪ vars m) (list_to_set cs ∪ constraints m).

Definition declare (c : Component) (p : path) (m : ConcreteModel)
    : Result ConcreteModel :=
  match c with
  | Mixer cfg => Ok (add (mixer_vars p cfg) (mixer_constraints p cfg) m)
  | HeatExchanger cfg =>
      Ok (add (heat_exchanger_vars p cfg) (heat_exchanger_constraints p cfg) m)
  | _ => Ok m
  end.

(** The solver's write-back: each listed value goes into its variable when
    that variable lies in the block and is not fixed. *)
Definition write_back (blk : path) (values : list (path * num)) (q : path)
    (d : VarData) : option VarData :=
  Some (if under blk q && negb (fixed d)
        then match (list_to_map values : gmap path num) !! q with
             | Some v => mkVar (Some v) false
             | None => d
             end
        else d).

Definition is_fixed (p : path) (m : ConcreteModel) : bool :=
  match vars m !! p with
  | Some d => fixed d
  | None => false
  end.

Definition mixer_solution (p : path) : list (path * num) :=
  [ (p ++ ["outlet"; "flow_mol"; "[0]"], NFloat 200);
    (p ++ ["outlet"; "mole_frac_comp"; "[0,benzene]"], NFloat 0.5);
    (p ++ ["outlet"; "mole_frac_comp"; "[0,toluene]"], NFloat 0.5);
    (p ++ ["outlet"; "temperature"; "[0]"], NFloat 354.61);
    (p ++ ["outlet"; "pressure"; "[0]"], NFloat 101325);
    (p ++ ["inlet_1_state"; "[0]"; "enth_mol_phase"; "[Liq]"], NFloat 52000);
    (p ++ ["inlet_2_state"; "[0]"; "enth_mol_phase"; "[Liq]"], NFloat 18000);
    (p ++ ["mixed_state"; "[0]"; "enth_mol_phase"; "[Liq]"], NFloat 35000) ].

Definition option1_solution : list (path * num) :=
  [ (["fs"; "heat_exchanger"; "shell"; "properties_out"; "[0]"; "temperature"], NFloat 373.13);
    (["fs"; "heat_exchanger"; "tube"; "properties_out"; "[0]"; "temperature"], NFloat 369.24) ].

Definition option2_solution : list (path * num) :=
  [ (["fs"; "heat_exchanger"; "area"], NFloat 200.26);
    (["fs"; "heat_exchanger"; "tube"; "properties_out"; "[0]"; "temperature"], NFloat 371.27) ].

(** [on_free_area] is the results object the solver returns when it is run
    with the heat-exchanger area free, which is the second solve of the
    heat-exchanger notebook; every other solve returns optimal and ok. *)
Definition solver (on_free_area : SolverResults) (name : string) (blk : path)
    (m : ConcreteModel) : Result (ConcreteModel * SolverResults) :=
  let area := ["fs"; "heat_exchanger"; "area"] in
  let option2 := bool_decide (is_Some (vars m !! area)) && negb (is_fixed area m) in
  let values :=
    mixer_solution ["fs"; "mixer_1"] ++ mixer_solution ["fs"; "mixer_2"]
    ++ (if option2 then option2_solution else option1_solution) in
  Ok (mkModel (map_imap (write_back blk values) (vars m)) (constraints m),
      if option2 then on_free_area else mkResults optimal ok).

(** A made-up enthalpy, linear in the temperature. *)
Definition htpx (T P : num) : Result num :=
  t ← num_mul (NFloat 36) T ;
  num_sub t (NInt (- 1000)).

Definition framework (on_free_area : SolverResults) : Framework :=
  mkFramework declare (λ _ m, Ok m) (solver on_free_area) htpx.

End StandIn.

(** ** Concrete runs used below *)

Module Runs.

(** The stand-in framework whose solver converges everywhere, and the one
    whose second heat-exchanger solve stops at the iteration limit. *)
Definition converging : Framework :=
  StandIn.framework (mkResults optimal ok).

Definition stalling : Framework :=
  StandIn.framework (mkResults maxIterations warning).

Definition run_to (cells : list (NB unit)) : Kernel :=
  default fresh_kernel (final (run_all cells fresh_kernel)).

Definition after (c : NB unit) (k : Kernel) : Kernel :=
  default k (final (c k)).

(** The heat-exchanger notebook up to the cell before the second solve,
    and the state that solve leaves. *)
Definition before_option2_solve : Kernel :=
  run_to (take 10 (HeatExchangerNotebook.notebook stalling)).

Definition after_option2_solve : Kernel :=
  after (HeatExchangerNotebook.cell_option2_solve stalling) before_option2_solve.

(** The mixer notebook up to the cell before the case 2 solve, and the
    state that solve leaves. *)
Definition before_solve_2 : Kernel :=
  run_to (take 15 (MixerNotebook.notebook converging)).

Definition after_solve_2 : Kernel :=
  after (MixerNotebook.cell_solve_2 converging) before_solve_2.

End Runs.

(** ** Counting fixed variables, and the paths of Option 2 *)

Module Unknowns.

(** The number of fixed variables of the block [blk] that lie in the
    component [p]: what unfixing [p] adds to the count. *)
Definition fixed_under (blk p : path) (m : ConcreteModel) : nat :=
  size (filter (λ kv, under p kv.1 = true ∧ under blk kv.1 = true ∧ fixed kv.2 = true)
          (vars m)).

(** What a run of [fix] calls makes of the variable [q]. *)
Definition fixed_by (fs : list (path * num)) (q : path) (d : VarData) : VarData :=
  foldl (λ d pv, if under pv.1 q then mkVar (Some pv.2) true else d) d fs.

(** The error of the first of the components [ps], in their order, that
    cannot be reached in [m]. *)
Definition first_error (ps : list path) (m : ConcreteModel) : option exn :=
  head (omap (λ p, lookup_error p m) ps).

(** The two components that the Option 2 cell of the heat-exchanger
    notebook touches, and the two variables its testing cell reads. *)
Definition area : path := HeatExchangerNotebook.heat_exchanger ++ ["area"].

Definition shell_outlet_enth_mol : path :=
  HeatExchangerNotebook.heat_exchanger ++ ["shell_outlet"; "enth_mol"].

Definition tube_outlet_temperature : path :=
  HeatExchangerNotebook.heat_exchanger ++ ["tube"; "properties_out"; "[0]"; "temperature"].

(** The names that the first testing cell of the heat-exchanger notebook
    imports, bound as it binds them. *)
Definition testing_imports (k : Kernel) : Prop :=
  globals k !! "TerminationCondition" = Some (PImported "pyomo.opt" "TerminationCondition")
  ∧ globals k !! "SolverStatus" = Some (PImported "pyomo.opt" "SolverStatus")
  ∧ globals k !! "pytest" = Some (PModule "pytest").

(** The difference that the case 1 results check of the mixer notebook
    compares with zero, as Python computes it from the three flows and
    enthalpies: each product and each difference is rounded. *)
Definition enthalpy_imbalance (F1 h1 F2 h2 Fo ho : num) : Result PyObj :=
  in1 ← mul (of_num F1) (of_num h1) ;
  in2 ← mul (of_num F2) (of_num h2) ;
  out ← mul (of_num Fo) (of_num ho) ;
  d ← sub out in1 ;
  sub d in2.

End Unknowns.
Export Unknowns.

(** ** The cells tagged as testing cells *)

Module Tagged.

(** The cells of each notebook with their tag: [true] for the cells
    tagged [testing]. *)
Definition mixer_cells (fw : Framework) : list (bool * NB unit) :=
  [ (false, MixerNotebook.cell_flowsheet fw);
    (false, MixerNotebook.cell_mixer_1 fw);
    (true, MixerNotebook.cell_test_DOF_initial);
    (false, MixerNotebook.cell_fix_case1);
    (true, MixerNotebook.cell_test_DOF_final);
    (false, MixerNotebook.cell_initialize_1 fw);
    (false, MixerNotebook.cell_solve_1 fw);
    (true, MixerNotebook.cell_test_solver);
    (true, MixerNotebook.cell_energy_balance);
    (true, MixerNotebook.cell_test_results_1);
    (false, MixerNotebook.cell_mixer_2 fw);
    (false, MixerNotebook.cell_DOF_init);
    (true, MixerNotebook.cell_test_DOF_init);
    (false, MixerNotebook.cell_fix_case2);
    (false, MixerNotebook.cell_initialize_2 fw);
    (false, MixerNotebook.cell_solve_2 fw);
    (true, MixerNotebook.cell_test_solver);
    (true, MixerNotebook.cell_test_results_2) ].

Definition heat_exchanger_cells (fw : Framework) : list (bool * NB unit) :=
  [ (false, HeatExchangerNotebook.cell_flowsheet fw);
    (false, HeatExchangerNotebook.cell_heat_exchanger fw);
    (true, HeatExchangerNotebook.cell_test_DOF_initial);
    (false, HeatExchangerNotebook.cell_fix_shell_inlet fw);
    (false, HeatExchangerNotebook.cell_fix_tube_inlet);
    (false, HeatExchangerNotebook.cell_option1_fix);
    (true, HeatExchangerNotebook.cell_test_DOF_final);
    (false, HeatExchangerNotebook.cell_option1_solve fw);
    (true, HeatExchangerNotebook.cell_option1_test);
    (false, HeatExchangerNotebook.cell_option2_fix fw);
    (false, HeatExchangerNotebook.cell_option2_solve fw);
    (true, HeatExchangerNotebook.cell_option2_test) ].

(** The notebook with the tagged cells taken out. *)
Definition without_testing (cells : list (bool * NB unit)) : list (NB unit) :=
  (filter (λ tc, tc.1 = false) cells).*2.

(** The names that only the testing cells bind: in the heat-exchanger
    notebook the three imported ones, in the mixer notebook these and the
    nine of the energy balance. *)
Definition imported_names : list string :=
  [ "TerminationCondition"; "SolverStatus"; "pytest" ].

Definition testing_names : list string :=
  imported_names ++
  [ "molflow_1"; "molflow_2"; "benzene_1"; "toluene_2"; "total_enthalpy_in1";
    "total_enthalpy_in2"; "molar_enthalpy_out"; "mole_flow_out";
    "total_enthalpy_out" ].

(** Two states with the same model and the same globals but for the names
    in [T]. *)
Definition agree (T : list string) (k1 k2 : Kernel) : Prop :=
  m k1 = m k2 ∧ ∀ n, bool_decide (n ∈ T) = false → globals k1 !! n = globals k2 !! n.

(** A computation that cannot tell such states apart, one that only binds
    names in [T], and one that binds no name in [T]. *)
Definition respects (T : list string) {A} (c : NB A) : Prop :=
  ∀ k1 k2 a k1', agree T k1 k2 → c k1 = Ok (a, k1') →
  ∃ k2', c k2 = Ok (a, k2') ∧ agree T k1' k2'.

Definition quiet (T : list string) {A} (c : NB A) : Prop :=
  ∀ k a k', c k = Ok (a, k') → agree T k' k.

Definition untouched (T : list string) {A} (c : NB A) : Prop :=
  ∀ k a k', c k = Ok (a, k') →
  ∀ n, bool_decide (n ∈ T) = true → globals k' !! n = globals k !! n.

End Tagged.
Export Tagged.

(** ** More concrete states *)

Module Scenarios.

(** A framework whose solver never converges: it returns the model as it
    got it and reports the iteration limit. *)
Definition failing : Framework :=
  mkFramework StandIn.declare (λ _ m, Ok m)
    (λ _ _ m, Ok (m, mkResults maxIterations warning)) (λ T P, Ok (NInt 0)).

(** The state after the first [n] cells of each notebook, on the stand-in
    framework with the converging solver. *)
Definition mixer_at (n : nat) : Kernel :=
  Runs.run_to (take n (MixerNotebook.notebook Runs.converging)).

Definition heat_exchanger_at (n : nat) : Kernel :=
  Runs.run_to (take n (HeatExchangerNotebook.notebook Runs.converging)).

(** Mixer notebook: around the cell that builds [mixer_1] and the two
    cells after it, around each fixing cell, and around the energy balance
    and results cells of case 1. *)
Definition mixer_1_built : Kernel :=
  Runs.after (MixerNotebook.cell_mixer_1 Runs.converging) (mixer_at 1).

Definition case1_counted : Kernel :=
  Runs.after (run_all [MixerNotebook.cell_test_DOF_initial; MixerNotebook.cell_fix_case1])
    mixer_1_built.

Definition case1_fixed : Kernel :=
  Runs.after MixerNotebook.cell_fix_case1 (mixer_at 3).

Definition case1_balanced : Kernel :=
  Runs.after MixerNotebook.cell_energy_balance (mixer_at 8).

Definition case1_checked : Kernel :=
  Runs.after MixerNotebook.cell_test_results_1 case1_balanced.

Definition case2_counted : Kernel :=
  Runs.after (run_all [MixerNotebook.cell_DOF_init; MixerNotebook.cell_test_DOF_init;
                       MixerNotebook.cell_fix_case2]) (mixer_at 11).

Definition case2_fixed : Kernel :=
  Runs.after MixerNotebook.cell_fix_case2 (mixer_at 13).

Definition mixer_done : Kernel :=
  Runs.after (run_all (MixerNotebook.notebook Runs.converging)) fresh_kernel.

(** Heat-exchanger notebook: around the cell that builds the unit, the
    fixing cells, the Option 2 cell, and the second solve when it stalls. *)
Definition heat_exchanger_built : Kernel :=
  Runs.after (HeatExchangerNotebook.cell_heat_exchanger Runs.converging)
    (heat_exchanger_at 1).

Definition shell_inlet_fixed : Kernel :=
  Runs.after (HeatExchangerNotebook.cell_fix_shell_inlet Runs.converging)
    heat_exchanger_built.

Definition option1_counted : Kernel :=
  Runs.after (run_all [HeatExchangerNotebook.cell_test_DOF_initial;
                       HeatExchangerNotebook.cell_fix_shell_inlet Runs.converging;
                       HeatExchangerNotebook.cell_fix_tube_inlet;
                       HeatExchangerNotebook.cell_option1_fix])
    heat_exchanger_built.

Definition option1_fixed : Kernel :=
  Runs.after (run_all [HeatExchangerNotebook.cell_fix_shell_inlet Runs.converging;
                       HeatExchangerNotebook.cell_fix_tube_inlet;
                       HeatExchangerNotebook.cell_option1_fix])
    (heat_exchanger_at 3).

Definition option2_fixed : Kernel :=
  Runs.after (HeatExchangerNotebook.cell_option2_fix Runs.converging)
    (heat_exchanger_at 9).

Definition option1_solved : Kernel :=
  Runs.run_to (take 8 (HeatExchangerNotebook.notebook Runs.stalling)).

Definition option2_stalled : Kernel :=
  Runs.after (run_all [HeatExchangerNotebook.cell_option1_test;
                       HeatExchangerNotebook.cell_option2_fix Runs.stalling;
                       HeatExchangerNotebook.cell_option2_solve Runs.stalling])
    option1_solved.

Definition heat_exchanger_done : Kernel :=
  Runs.after (run_all (HeatExchangerNotebook.notebook Runs.converging)) fresh_kernel.

End Scenarios.

(** * Properties of the cell monad *)

Section Monad.

Lemma bind_Ok {A B} (c : NB A) (f : A → NB B) k b k' :
  (c ≫= f) k = Ok (b, k') ↔ ∃ a k1, c k = Ok (a, k1) ∧ f a k1 = Ok (b, k').
Proof.
  unfold mbind, NB_bind. split.
  - destruct (c k) as [[a k1]|e]; [eauto | discriminate].
  - intros (a & k1 & -> & H). exact H.
Qed.

Lemma load_Ok name k o k' :
  load name k = Ok (o, k') ↔ globals k !! name = Some o ∧ k' = k.
Proof.
  unfold load. destruct (globals k !! name); split.
  - intros H. by simplify_eq.
  - intros [H ->]. by simplify_eq.
  - discriminate.
  - intros [H _]. discriminate.
Qed.

Lemma store_Ok name o k u k' :
  store name o k = Ok (u, k') ↔ k' = mkKernel (m k) (<[name := o]> (globals k)).
Proof. unfold store. destruct u. split; intros H; by simplify_eq. Qed.

Lemma solve_Ok fw opt blk k o k' :
  solve fw opt blk k = Ok (o, k') ↔
  ∃ name m' r, opt = PSolver name ∧ solver fw name blk (m k) = Ok (m', r)
               ∧ o = PResults r ∧ k' = mkKernel m' (globals k).
Proof.
  unfold solve. split.
  - destruct opt; try discriminate.
    destruct (solver fw name blk (m k)) as [[m' r]|] eqn:E; [|discriminate].
    intros H. simplify_eq. exists name, m', r. by rewrite E.
  - intros (name & m' & r & -> & -> & -> & ->). done.
Qed.

Lemma lift_Ok {A} (r : Result A) k a k' :
  lift r k = Ok (a, k') ↔ r = Ok a ∧ k' = k.
Proof.
  unfold lift. destruct r; split.
  - intros H. by simplify_eq.
  - intros [H ->]. by simplify_eq.
  - discriminate.
  - intros [H _]. discriminate.
Qed.

Lemma assert_Ok b k u k' :
  assert_ b k = Ok (u, k') ↔ b = true ∧ k' = k.
Proof.
  unfold assert_. destruct b, u; split.
  - intros H. unfold mret, NB_ret in H. by simplify_eq.
  - by intros [_ ->].
  - discriminate.
  - intros [H _]. discriminate.
Qed.

Lemma read_model_Ok {A} (f : ConcreteModel → Result A) k a k' :
  read_model f k = Ok (a, k') ↔ f (m k) = Ok a ∧ k' = k.
Proof.
  unfold read_model. destruct (f (m k)); split.
  - intros H. by simplify_eq.
  - intros [H ->]. by simplify_eq.
  - discriminate.
  - intros [H _]. discriminate.
Qed.

Lemma update_model_Ok f k u k' :
  update_model f k = Ok (u, k') ↔ ∃ m', f (m k) = Ok m' ∧ k' = mkKernel m' (globals k).
Proof.
  unfold update_model. destruct (f (m k)) as [m'|]; destruct u; split.
  - intros H. simplify_eq. by exists m'.
  - intros (? & H & ->). by simplify_eq.
  - discriminate.
  - intros (? & H & _). discriminate.
Qed.

(** An import binds its names, one after the other, and cannot fail. *)
Lemma import_from_Ok module names k u k' :
  import_from module names k = Ok (u, k') ↔
  k' = mkKernel (m k) (foldl (λ g n, <[n := PImported module n]> g) (globals k) names).
Proof.
  destruct u. revert k. induction names as [|n names IH]; intros k; simpl.
  - unfold mret, NB_ret. destruct k. simpl. split; intros H; by simplify_eq.
  - unfold mbind, NB_bind, store. apply IH.
Qed.

Lemma import_as_Ok module name k u k' :
  import_as module name k = Ok (u, k') ↔
  k' = mkKernel (m k) (<[name := PModule module]> (globals k)).
Proof. apply store_Ok. Qed.

Lemma after_Ok (c : NB unit) k :
  raised (c k) = None → c k = Ok (tt, Runs.after c k).
Proof. unfold Runs.after. by destruct (c k) as [[[] k1]|e]. Qed.

(** A sequence raises nothing when its first part returns and the rest,
    run from there, raises nothing. *)
Lemma raised_bind {A B} (c : NB A) (f : A → NB B) k :
  raised ((c ≫= f) k) = None ↔ ∃ a k1, c k = Ok (a, k1) ∧ raised (f a k1) = None.
Proof.
  unfold mbind, NB_bind. destruct (c k) as [[a k1]|e]; simpl; split.
  - eauto.
  - by intros (? & ? & [= <- <-] & ?).
  - discriminate.
  - by intros (? & ? & ? & _).
Qed.

(** One comparison with [pytest.approx]: it returns when the name
    [pytest] is bound to the module and the comparison holds. *)
Lemma assert_approx_Ok v e tol k u k' :
  assert_approx v e tol k = Ok (u, k') → approx v e tol = Ok true ∧ k' = k.
Proof.
  unfold assert_approx. intros H.
  apply bind_Ok in H as (? & ? & [_ ->]%load_Ok & H).
  apply bind_Ok in H as (? & ? & [_ ->]%lift_Ok & H).
  apply bind_Ok in H as (b & ? & [Hb ->]%lift_Ok & H).
  apply assert_Ok in H as [-> ->]. done.
Qed.

Lemma assert_approx_run v e tol k :
  globals k !! "pytest" = Some (PModule "pytest") →
  assert_approx v e tol k =
  match approx v e tol with
  | Ok true => Ok (tt, k)
  | Ok false => Raise AssertionError
  | Raise e => Raise e
  end.
Proof.
  intros Hp. unfold assert_approx, mbind, NB_bind, load, lift, assert_.
  rewrite Hp. simpl. by destruct (approx v e tol) as [[]|].
Qed.

End Monad.

(** Inversion of a cell that returned: each step of the bind chain is
    replaced by what it read or wrote. *)
Ltac nb_prim H :=
  lazymatch type of H with
  | assert_approx _ _ _ _ = _ => apply assert_approx_Ok in H as [H ->]
  | _ =>
    first [ apply load_Ok in H as [H ->]
          | apply lift_Ok in H as [H ->]
          | apply assert_Ok in H as [H ->]
          | apply read_model_Ok in H as [H ->]
          | apply store_Ok in H as ->
          | apply import_as_Ok in H as ->
          | apply import_from_Ok in H as ->
          | apply update_model_Ok in H as (? & H & ->) ]
  end.

Ltac nb_inv H :=
  repeat (lazymatch type of H with
          | mbind _ _ _ = _ =>
              let H1 := fresh "Hstep" in
              apply bind_Ok in H as (? & ? & H1 & H); try nb_prim H1
          end);
  try nb_prim H.

(** Reading back a global that an earlier step of the cell stored. *)
Ltac nb_lookup :=
  repeat match goal with
  | H : <[_ := _]> _ !! _ = Some _ |- _ =>
      first [ rewrite lookup_insert_eq in H; injection H as <-
            | rewrite lookup_insert_ne in H by done ]
  end.

(** * Reaching a component *)

Section Lookup.
Implicit Types (m : ConcreteModel) (p q : path).

Lemma under_app_l blk l q : under (blk ++ l) q = true → under blk q = true.
Proof.
  unfold under. rewrite !bool_decide_eq_true. intros H.
  by etrans; [apply prefix_app_r|exact H].
Qed.

Lemma has_component_app p l m :
  has_component (p ++ l) m = true → has_component p m = true.
Proof.
  unfold has_component. rewrite !bool_decide_eq_true.
  intros (q & Hq & Hu). exists q. split; [done|]. by eapply under_app_l.
Qed.

Lemma has_component_var p d m : vars m !! p = Some d → has_component p m = true.
Proof.
  intros H. unfold has_component. apply bool_decide_eq_true. exists p. split.
  - apply elem_of_dom. by eexists.
  - unfold under. by apply bool_decide_eq_true.
Qed.

Lemma missing_step_None seen rest m :
  rest ≠ [] →
  missing_step seen rest m = None ↔ has_component (seen ++ rest) m = true.
Proof.
  revert seen. induction rest as [|s rest IH]; intros seen Hne; [done|]. simpl.
  destruct rest as [|s' rest].
  - simpl. destruct (has_component (seen ++ [s]) m); split; done.
  - destruct (has_component (seen ++ [s]) m) eqn:E.
    + rewrite IH by done. by rewrite <-app_assoc.
    + split; [done|]. intros H.
      change (s :: s' :: rest) with ([s] ++ s' :: rest) in H.
      rewrite app_assoc in H. apply has_component_app in H. congruence.
Qed.

Lemma lookup_error_None p m :
  p ≠ [] → lookup_error p m = None ↔ has_component p m = true.
Proof. intros H. unfold lookup_error. by rewrite missing_step_None. Qed.

Lemma lookup_error_var p d m : vars m !! p = Some d → lookup_error p m = None.
Proof.
  intros H. destruct p as [|s p]; [done|].
  apply lookup_error_None; [done|]. by eapply has_component_var.
Qed.

(** A missing step is a [KeyError] or an [AttributeError]. *)
Lemma missing_step_kind seen rest m e :
  missing_step seen rest m = Some e → e = KeyError ∨ e = AttributeError.
Proof.
  revert seen. induction rest as [|s rest IH]; intros seen; simpl; [done|].
  destruct (has_component (seen ++ [s]) m); [apply IH|].
  intros [= <-]. destruct (is_index s); auto.
Qed.

Lemma missing_step_ext seen rest m m' :
  (∀ p, has_component p m' = has_component p m) →
  missing_step seen rest m' = missing_step seen rest m.
Proof.
  intros H. revert seen. induction rest as [|s rest IH]; intros seen; simpl; [done|].
  by rewrite H, IH.
Qed.

Lemma first_error_cons p ps m :
  first_error (p :: ps) m =
  match lookup_error p m with
  | Some e => Some e
  | None => first_error ps m
  end.
Proof. unfold first_error. simpl. by destruct (lookup_error p m). Qed.

Lemma first_error_None ps m :
  Forall (λ p, p ≠ []) ps →
  first_error ps m = None ↔ forallb (λ p, has_component p m) ps = true.
Proof.
  induction 1 as [|p ps Hp _ IH]; [done|]. rewrite first_error_cons. simpl.
  rewrite andb_true_iff, <-IH, <-(lookup_error_None p m Hp).
  destruct (lookup_error p m); intuition congruence.
Qed.

Lemma first_error_kind ps m e :
  first_error ps m = Some e → e = KeyError ∨ e = AttributeError.
Proof.
  induction ps as [|p ps IH]; [done|]. rewrite first_error_cons.
  destruct (lookup_error p m) eqn:E; [|exact IH].
  intros [= <-]. by eapply missing_step_kind.
Qed.

End Lookup.

(** * Fixing variables and the count of unknowns *)

Section Counting.
Implicit Types (m : ConcreteModel) (p q blk : path).

Lemma fix_Ok p v m m' :
  fix_ p v m = Ok m' →
  m' = mkModel (map_imap (set_fixed p v) (vars m)) (constraints m).
Proof. unfold fix_. destruct (lookup_error p m); intros H; by simplify_eq. Qed.

Lemma lookup_fix p v m m' q :
  fix_ p v m = Ok m' →
  vars m' !! q = (λ d, if under p q then mkVar (Some v) true else d) <$> vars m !! q.
Proof.
  intros ->%fix_Ok. simpl. rewrite map_lookup_imap.
  by destruct (vars m !! q).
Qed.

Lemma size_filter_split {A} (P : path * A → Prop) `{!∀ x, Decision (P x)}
    (mp : gmap path A) :
  size mp = (size (filter P mp) + size (filter (λ x, ¬ P x) mp))%nat.
Proof.
  rewrite <-map_size_disj_union by apply map_disjoint_filter_complement.
  by rewrite map_filter_union_complement.
Qed.

Lemma free_after_fix blk p v m m' :
  fix_ p v m = Ok m' →
  filter (λ kv, is_free blk kv.1 kv.2 = true) (vars m')
  = filter (λ kv, ¬ under p kv.1 = true)
      (filter (λ kv, is_free blk kv.1 kv.2 = true) (vars m)).
Proof.
  intros H. apply map_filter_strong_ext_1. intros q d. simpl.
  rewrite (lookup_fix _ _ _ _ q H), map_lookup_filter_Some. simpl.
  destruct (vars m !! q) as [d0|]; simpl.
  2: { split; [intros [_ ?] | intros (_ & ? & _)]; discriminate. }
  destruct (under p q) eqn:Eu.
  - split.
    + intros [Hf Hd]. injection Hd as <-. unfold is_free in Hf. simpl in Hf.
      rewrite andb_false_r in Hf. discriminate.
    + intros [Hn _]. by destruct Hn.
  - split.
    + intros [Hf Hd]. injection Hd as <-. by repeat split.
    + intros (_ & Hd & Hf). by split.
Qed.

Lemma dof_fix blk p v m m' :
  fix_ p v m = Ok m' →
  degrees_of_freedom blk m' = (degrees_of_freedom blk m - Z.of_nat (free_under blk p m))%Z.
Proof.
  intros H. unfold degrees_of_freedom, free_under.
  rewrite (free_after_fix _ _ _ _ _ H).
  rewrite (fix_Ok _ _ _ _ H) at 1. simpl.
  rewrite (size_filter_split (λ kv, under p kv.1 = true)
             (filter (λ kv, is_free blk kv.1 kv.2 = true) (vars m))).
  lia.
Qed.

Lemma under_both_not_apart p1 p2 q :
  under p1 q = true → under p2 q = true → apart p1 p2 = false.
Proof.
  unfold apart, under. rewrite !bool_decide_eq_true. intros H1 H2.
  destruct (prefix_weak_total _ _ _ H1 H2) as [H|H];
    rewrite (bool_decide_eq_true_2 _ H); simpl; [done | by rewrite andb_false_r].
Qed.

Lemma free_under_fix_apart blk p1 p2 v m m' :
  apart p1 p2 = true →
  fix_ p1 v m = Ok m' →
  free_under blk p2 m' = free_under blk p2 m.
Proof.
  intros Ha H. unfold free_under. rewrite (free_after_fix _ _ _ _ _ H).
  f_equal. apply map_filter_filter_l. intros q d _ H2 H1. simpl in *.
  by rewrite (under_both_not_apart _ _ _ H1 H2) in Ha.
Qed.

Lemma dof_fix_all blk fs m m' :
  all_apart fs.*1 = true →
  Forall (λ p, free_under blk p m = 1%nat) fs.*1 →
  fix_all fs m = Ok m' →
  degrees_of_freedom blk m' = (degrees_of_freedom blk m - Z.of_nat (length fs))%Z.
Proof.
  revert m. induction fs as [|[p v] fs IH]; intros m Ha Hf H; simpl in *.
  - simplify_eq. lia.
  - apply andb_prop in Ha as [Hp Ha]. inversion_clear Hf as [|? ? H1 Hf'].
    destruct (fix_ p v m) as [m1|] eqn:E; [|discriminate].
    rewrite (IH m1 Ha); [| |exact H].
    + rewrite (dof_fix _ _ _ _ _ E), H1. lia.
    + rewrite forallb_forall in Hp. rewrite Forall_forall in Hf' |- *.
      intros p' Hin. rewrite (free_under_fix_apart blk p p' v m m1); [by apply Hf'| |exact E].
      apply Hp. by apply list_elem_of_In.
Qed.

Lemma fix_all_app fs1 fs2 m m' :
  fix_all (fs1 ++ fs2) m = Ok m' ↔
  ∃ m1, fix_all fs1 m = Ok m1 ∧ fix_all fs2 m1 = Ok m'.
Proof.
  revert m. induction fs1 as [|[p v] fs1 IH]; intros m; simpl.
  - split; [by exists m | by intros (? & [= ->] & ?)].
  - destruct (fix_ p v m) as [m1|]; [apply IH|].
    split; [discriminate | by intros (? & ? & _)].
Qed.

(** What a run of [fix] calls leaves in a variable. *)
Lemma lookup_fix_all fs m m' q :
  fix_all fs m = Ok m' →
  vars m' !! q =
  (λ d, foldl (λ d pv, if under pv.1 q then mkVar (Some pv.2) true else d) d fs)
    <$> vars m !! q.
Proof.
  revert m. induction fs as [|[p v] fs IH]; intros m H; simpl in *.
  - injection H as <-. by destruct (vars m !! q).
  - destruct (fix_ p v m) as [m1|] eqn:E; [|discriminate].
    rewrite (IH _ H), (lookup_fix _ _ _ _ q E). by destruct (vars m !! q).
Qed.

(** The components that hold a variable do not depend on its fixed flag
    or its value. *)
Lemma steady_paths blk fs fs' m :
  fs.*1 = fs'.*1 → steady blk fs m → steady blk fs' m.
Proof. unfold steady. by intros ->. Qed.

End Counting.

(** * The assertions on the solver's results *)

Section SolverStatus.
Variable fw : Framework.

Lemma dot_optimal_imported :
  dot_optimal (PImported "pyomo.opt" "TerminationCondition") = Ok optimal.
Proof. reflexivity. Qed.

Lemma dot_ok_imported :
  dot_ok (PImported "pyomo.opt" "SolverStatus") = Ok ok.
Proof. reflexivity. Qed.

(** What the pair of assertions does, as a function of the object bound
    to the name it reads, once the two enumerations are imported. *)
Lemma assert_optimal_ok_outcome name k :
  globals k !! "TerminationCondition"
    = Some (PImported "pyomo.opt" "TerminationCondition") →
  globals k !! "SolverStatus" = Some (PImported "pyomo.opt" "SolverStatus") →
  raised (assert_optimal_ok name k) =
  match globals k !! name with
  | None => Some (NameError name)
  | Some (PResults r) => if converged r then None else Some AssertionError
  | Some _ => Some AttributeError
  end.
Proof.
  intros Ht Hs. unfold assert_optimal_ok, converged.
  unfold mbind, NB_bind, load, lift, assert_.
  destruct (globals k !! name) as [[| | | |[tc st]| |]|] eqn:E;
    simpl; try reflexivity.
  rewrite Ht, dot_optimal_imported.
  destruct (bool_decide (tc = optimal)); simpl; [|reflexivity].
  rewrite E; simpl. rewrite Hs, dot_ok_imported.
  destruct (bool_decide (st = ok)); reflexivity.
Qed.

(** A cell made of reads and assertions leaves the state as it was. *)
Lemma assert_optimal_ok_Ok name k u k' :
  assert_optimal_ok name k = Ok (u, k') → k' = k.
Proof.
  unfold assert_optimal_ok. intros H.
  repeat (apply bind_Ok in H as (? & ? & H1 & H);
          first [ apply load_Ok in H1 as [_ ->]
                | apply lift_Ok in H1 as [_ ->]
                | apply assert_Ok in H1 as [_ ->] ]).
  by apply assert_Ok in H as [_ ->].
Qed.

Lemma assert_optimal_ok_run name k r :
  globals k !! "TerminationCondition"
    = Some (PImported "pyomo.opt" "TerminationCondition") →
  globals k !! "SolverStatus" = Some (PImported "pyomo.opt" "SolverStatus") →
  globals k !! name = Some (PResults r) →
  assert_optimal_ok name k = if converged r then Ok (tt, k) else Raise AssertionError.
Proof.
  intros Ht Hs Hr. pose proof (assert_optimal_ok_outcome name k Ht Hs) as Ho.
  rewrite Hr in Ho.
  destruct (assert_optimal_ok name k) as [[[] k']|e] eqn:E; simpl in Ho.
  - apply assert_optimal_ok_Ok in E as ->. by destruct (converged r).
  - destruct (converged r); congruence.
Qed.

(** The import that opens the testing cells after a solve. *)
Lemma import_status_run k :
  import_from "pyomo.opt" ["TerminationCondition"; "SolverStatus"] k =
  Ok (tt, mkKernel (m k)
            (<["SolverStatus" := PImported "pyomo.opt" "SolverStatus"]>
               (<["TerminationCondition" := PImported "pyomo.opt" "TerminationCondition"]>
                  (globals k)))).
Proof. reflexivity. Qed.

(** The mixer's testing cell after a solve, on the object bound to
    [result]. *)
Lemma cell_test_solver_run k r :
  globals k !! "result" = Some (PResults r) →
  MixerNotebook.cell_test_solver k =
  if converged r
  then Ok (tt, mkKernel (m k)
            (<["SolverStatus" := PImported "pyomo.opt" "SolverStatus"]>
               (<["TerminationCondition" := PImported "pyomo.opt" "TerminationCondition"]>
                  (globals k))))
  else Raise AssertionError.
Proof.
  intros Hr. unfold MixerNotebook.cell_test_solver.
  unfold mbind at 1. unfold NB_bind at 1. rewrite import_status_run.
  rewrite (assert_optimal_ok_run "result" _ r); [done| | |]; cbn [globals].
  - rewrite lookup_insert_ne by done. apply lookup_insert_eq.
  - apply lookup_insert_eq.
  - by rewrite !lookup_insert_ne by done.
Qed.

(** The second solve of the heat-exchanger notebook binds [result] and
    the model, and nothing else. *)
Lemma cell_option2_solve_Ok k k' :
  HeatExchangerNotebook.cell_option2_solve fw k = Ok (tt, k') →
  ∃ name m' r2, globals k !! "opt" = Some (PSolver name)
    ∧ solver fw name [] (m k) = Ok (m', r2)
    ∧ k' = mkKernel m' (<["result" := PResults r2]> (globals k)).
Proof.
  unfold HeatExchangerNotebook.cell_option2_solve. intros H.
  apply bind_Ok in H as (opt & k1 & Hl & H). apply load_Ok in Hl as [Hopt ->].
  apply bind_Ok in H as (o & k2 & Hs & H).
  apply solve_Ok in Hs as (name & m' & r2 & -> & Hsol & -> & ->).
  apply store_Ok in H as ->. by exists name, m', r2.
Qed.

Lemma run_all_cons c cells k :
  run_all (c :: cells) k =
  match c k with
  | Ok (_, k1) => run_all cells k1
  | Raise e => Raise e
  end.
Proof. reflexivity. Qed.

(** The three solves that the next testing cell does check: the results
    object goes to the name that cell reads. *)
Lemma cell_solve_1_run k m' r :
  solver fw "ipopt" [] (m k) = Ok (m', r) →
  MixerNotebook.cell_solve_1 fw k =
  Ok (tt, mkKernel m' (<["result" := PResults r]> (<["opt" := PSolver "ipopt"]> (globals k)))).
Proof.
  intros H. unfold MixerNotebook.cell_solve_1, SolverFactory.
  unfold mbind, NB_bind, store, load, solve. simpl.
  rewrite lookup_insert_eq. simpl. by rewrite H.
Qed.

Lemma cell_solve_2_run k m' r :
  solver fw "ipopt" MixerNotebook.mixer_2 (m k) = Ok (m', r) →
  MixerNotebook.cell_solve_2 fw k =
  Ok (tt, mkKernel m' (<["result" := PResults r]> (<["opt" := PSolver "ipopt"]> (globals k)))).
Proof.
  intros H. unfold MixerNotebook.cell_solve_2, SolverFactory.
  unfold mbind, NB_bind, store, load, solve. simpl.
  rewrite lookup_insert_eq. simpl. by rewrite H.
Qed.

Lemma cell_option1_solve_run k mi m' r :
  initialize fw HeatExchangerNotebook.heat_exchanger (m k) = Ok mi →
  solver fw "ipopt" [] mi = Ok (m', r) →
  HeatExchangerNotebook.cell_option1_solve fw k =
  Ok (tt, mkKernel m' (<["solve_status" := PResults r]> (<["opt" := PSolver "ipopt"]> (globals k)))).
Proof.
  intros Hi H. unfold HeatExchangerNotebook.cell_option1_solve, SolverFactory.
  unfold mbind, NB_bind, store, load, solve, update_model. simpl.
  rewrite Hi. simpl. rewrite lookup_insert_eq. simpl. by rewrite H.
Qed.

(** X1. Mixer notebook, case 1: when the solver returns a results object
    that does not report optimal and ok, the solve cell followed by its
    testing cell stops with an assertion error. *)
Lemma case1_unconverged_solve_raises k m' r :
  solver fw "ipopt" [] (m k) = Ok (m', r) →
  converged r = false →
  raised (run_all [MixerNotebook.cell_solve_1 fw; MixerNotebook.cell_test_solver] k)
  = Some AssertionError.
Proof.
  intros H Hr. rewrite run_all_cons, (cell_solve_1_run _ _ _ H), run_all_cons.
  rewrite (cell_test_solver_run _ r), Hr; [done|].
  cbn [globals]. apply lookup_insert_eq.
Qed.

(** X2. Mixer notebook, case 2: the same for the solve on the block
    [m.fs.mixer_2], whose results replace those of case 1 in [result]. *)
Lemma case2_unconverged_solve_raises k m' r :
  solver fw "ipopt" MixerNotebook.mixer_2 (m k) = Ok (m', r) →
  converged r = false →
  raised (run_all [MixerNotebook.cell_solve_2 fw; MixerNotebook.cell_test_solver] k)
  = Some AssertionError.
Proof.
  intros H Hr. rewrite run_all_cons, (cell_solve_2_run _ _ _ H), run_all_cons.
  rewrite (cell_test_solver_run _ r), Hr; [done|].
  cbn [globals]. apply lookup_insert_eq.
Qed.

(** X3. Heat-exchanger notebook, first solve: when the solver, run on the
    initialized model, returns a results object that does not report
    optimal and ok, the first testing cell stops with an assertion error. *)
Lemma option1_unconverged_solve_raises k mi m' r :
  initialize fw HeatExchangerNotebook.heat_exchanger (m k) = Ok mi →
  solver fw "ipopt" [] mi = Ok (m', r) →
  converged r = false →
  raised (run_all [HeatExchangerNotebook.cell_option1_solve fw;
                   HeatExchangerNotebook.cell_option1_test] k)
  = Some AssertionError.
Proof.
  intros Hi H Hr.
  rewrite run_all_cons, (cell_option1_solve_run _ _ _ _ Hi H), run_all_cons.
  unfold HeatExchangerNotebook.cell_option1_test.
  unfold mbind at 1. unfold NB_bind at 1. rewrite import_status_run.
  unfold mbind at 1. unfold NB_bind at 1. unfold import_as at 1. unfold store at 1.
  cbn [m globals].
  unfold mbind at 1. unfold NB_bind at 1.
  rewrite (assert_optimal_ok_run "solve_status" _ r), Hr; [done| | |]; cbn [globals].
  - rewrite !lookup_insert_ne by done. apply lookup_insert_eq.
  - rewrite lookup_insert_ne by done. apply lookup_insert_eq.
  - rewrite !lookup_insert_ne by done. apply lookup_insert_eq.
Qed.

End SolverStatus.

(** * What the testing cells check

    The values the testing cells compare are written by the solver.  What
    the cells themselves settle is which variable is compared with which
    number at which tolerance: a run that gets past a testing cell has
    these values in the model. *)

Section Checks.

Lemma as_num_of_num v : as_num (of_num v) = Some v.
Proof. by destruct v. Qed.

Lemma as_num_Some o v : as_num o = Some v → o = of_num v.
Proof. destruct o; simpl; intros H; by simplify_eq. Qed.

Lemma approx_number o e tol : approx o e tol = Ok true → ∃ v, o = of_num v.
Proof.
  unfold approx. destruct (as_num o) as [v|] eqn:E; [|discriminate].
  intros _. exists v. by apply as_num_Some.
Qed.

Lemma mul_numbers a b o : mul a b = Ok o → ∃ x y, a = of_num x ∧ b = of_num y.
Proof.
  unfold mul. destruct (as_num a) as [x|] eqn:Ea; [|discriminate].
  destruct (as_num b) as [y|] eqn:Eb; [|discriminate].
  intros _. exists x, y. split; by apply as_num_Some.
Qed.

Lemma dot_value_reads p m v : dot_value p m = Ok (of_num v) → reads m p v.
Proof.
  unfold dot_value, reads. destruct (vars m !! p) as [d|]; [|discriminate].
  intros [= H]. exists d. split; [done|].
  destruct (value d) as [w|]; simpl in H; [|by destruct v].
  f_equal. destruct w, v; simpl in H; by simplify_eq.
Qed.

Lemma pyo_value_Ok p m o : pyo_value p m = Ok o ↔ ∃ v, reads m p v ∧ o = of_num v.
Proof.
  unfold pyo_value, reads. split.
  - destruct (vars m !! p) as [d|]; [|discriminate].
    destruct (value d) as [v|] eqn:E; [|discriminate].
    intros [= <-]. exists v. split; [by exists d | done].
  - intros (v & (d & -> & ->) & ->). done.
Qed.

Lemma approx_dot_value m p o e tol :
  dot_value p m = Ok o → approx o e tol = Ok true → within m p e tol.
Proof.
  intros Hd Ha. destruct (approx_number _ _ _ Ha) as [v ->].
  exists v. split; [by apply dot_value_reads | done].
Qed.

Lemma approx_pyo_value m p o e tol :
  pyo_value p m = Ok o → approx o e tol = Ok true → within m p e tol.
Proof.
  intros (v & Hr & ->)%pyo_value_Ok Ha. exists v. by split.
Qed.

(** Reading a value and comparing it returns exactly when the variable
    holds a number within the tolerance. *)
Lemma check_value_run p e tol (rest : NB unit) k :
  globals k !! "pytest" = Some (PModule "pytest") →
  raised ((t ← read_model (pyo_value p) ; assert_approx t e tol ;; rest) k) = None
  ↔ within (m k) p e tol ∧ raised (rest k) = None.
Proof.
  intros Hp. rewrite raised_bind. split.
  - intros (t & k1 & [Ht ->]%read_model_Ok & H).
    apply raised_bind in H as ([] & k2 & [Ha ->]%assert_approx_Ok & H).
    split; [by eapply approx_pyo_value | done].
  - intros [(v & Hr & Ha) H]. exists (of_num v), k. split.
    + apply read_model_Ok. split; [|done]. apply pyo_value_Ok. eauto.
    + apply raised_bind. exists tt, k. split; [|done].
      by rewrite assert_approx_run, Ha.
Qed.

(** Case 2 of the mixer notebook: the outlet values that a run past the
    results check has in the model. *)
Lemma test_results_2_checks k k' :
  MixerNotebook.cell_test_results_2 k = Ok (tt, k') →
  let outlet := MixerNotebook.mixer_2 ++ ["outlet"] in
  within (m k) (outlet ++ ["flow_mol"; "[0]"]) (NInt 200) (NFloat 1e-2)
  ∧ within (m k) (outlet ++ ["mole_frac_comp"; "[0,benzene]"]) (NFloat 0.5) (NFloat 1e-3)
  ∧ within (m k) (outlet ++ ["mole_frac_comp"; "[0,toluene]"]) (NFloat 0.5) (NFloat 1e-3)
  ∧ within (m k) (outlet ++ ["temperature"; "[0]"]) (NFloat 354.61) (NFloat 1e-2)
  ∧ within (m k) (outlet ++ ["pressure"; "[0]"]) (NInt 101325) (NInt 1).
Proof.
  unfold MixerNotebook.cell_test_results_2. intros H. nb_inv H.
  repeat split; eapply approx_dot_value; eauto.
Qed.

Lemma enthalpy_imbalance_run F1 h1 F2 h2 Fo ho in1 in2 out d1 d :
  mul (of_num F1) (of_num h1) = Ok in1 →
  mul (of_num F2) (of_num h2) = Ok in2 →
  mul (of_num Fo) (of_num ho) = Ok out →
  sub out in1 = Ok d1 →
  sub d1 in2 = Ok d →
  enthalpy_imbalance F1 h1 F2 h2 Fo ho = Ok d.
Proof.
  intros H1 H2 H3 H4 H5. unfold enthalpy_imbalance.
  rewrite H1. cbn [mbind Result_bind]. rewrite H2. cbn [mbind Result_bind].
  rewrite H3. cbn [mbind Result_bind]. rewrite H4. exact H5.
Qed.


(** Case 1: the outlet values that a run past the results check has in
    the model. *)
Lemma test_results_1_checks k k' :
  MixerNotebook.cell_test_results_1 k = Ok (tt, k') →
  let outlet := MixerNotebook.mixer_1 ++ ["outlet"] in
  within (m k) (outlet ++ ["mole_frac_comp"; "[0,benzene]"]) (NFloat 0.5) (NFloat 1e-3)
  ∧ within (m k) (outlet ++ ["mole_frac_comp"; "[0,toluene]"]) (NFloat 0.5) (NFloat 1e-3)
  ∧ within (m k) (outlet ++ ["temperature"; "[0]"]) (NFloat 354.61) (NFloat 1e-2)
  ∧ within (m k) (outlet ++ ["pressure"; "[0]"]) (NInt 101325) (NInt 1).
Proof.
  unfold MixerNotebook.cell_test_results_1. intros H. nb_inv H. cbn [m] in *.
  repeat split; eapply approx_dot_value; eauto.
Qed.

(** The heat-exchanger notebook: the values that a run past the first
    and the second testing cell has in the model. *)
Lemma option1_test_checks k k' :
  HeatExchangerNotebook.cell_option1_test k = Ok (tt, k') →
  let hx := HeatExchangerNotebook.heat_exchanger in
  within (m k) (hx ++ ["shell"; "properties_out"; "[0]"; "temperature"])
    (NFloat 373.13) (NFloat 1e-2)
  ∧ within (m k) (hx ++ ["tube"; "properties_out"; "[0]"; "temperature"])
      (NFloat 369.24) (NFloat 1e-2).
Proof.
  unfold HeatExchangerNotebook.cell_option1_test. intros H.
  apply bind_Ok in H as ([] & ? & ->%import_from_Ok & H).
  apply bind_Ok in H as ([] & ? & ->%import_as_Ok & H).
  apply bind_Ok in H as ([] & ? & ->%assert_optimal_ok_Ok & H). nb_inv H.
  cbn [m] in *. split; eapply approx_pyo_value; eauto.
Qed.

Lemma option2_test_checks k k' :
  HeatExchangerNotebook.cell_option2_test k = Ok (tt, k') →
  within (m k) area (NFloat 200.26) (NFloat 1e-2)
  ∧ within (m k) tube_outlet_temperature (NFloat 371.27) (NFloat 1e-2).
Proof.
  unfold HeatExchangerNotebook.cell_option2_test. intros H.
  apply bind_Ok in H as ([] & ? & ->%assert_optimal_ok_Ok & H). nb_inv H.
  split; eapply approx_pyo_value; eauto.
Qed.

End Checks.

(** * The block a solve is run on *)

Section SolveTarget.
Variable fw : Framework.

Lemma under_root q : under [] q = true.
Proof. unfold under. apply bool_decide_eq_true. apply prefix_nil. Qed.

Lemma under_mixer_1_not_mixer_2 q :
  under MixerNotebook.mixer_1 q = true → under MixerNotebook.mixer_2 q = false.
Proof.
  unfold under. rewrite bool_decide_eq_true, bool_decide_eq_false.
  intros [l1 ->] [l2 H]. discriminate H.
Qed.

(** C10. The case 2 solve is called on the block [m.fs.mixer_2], where the
    case 1 solve is called on the whole model.  With a solver that writes
    only into the block it is handed, every variable of [m.fs.mixer_1] has
    after the case 2 solve the value it had before it. *)
Theorem solve_2_leaves_mixer_1 k k' :
  solver_frame fw →
  MixerNotebook.cell_solve_2 fw k = Ok (tt, k') →
  (∃ r, solver fw "ipopt" MixerNotebook.mixer_2 (m k) = Ok (m k', r))
  ∧ ∀ q, under MixerNotebook.mixer_1 q = true → vars (m k') !! q = vars (m k) !! q.
Proof.
  intros Hframe H. unfold MixerNotebook.cell_solve_2, SolverFactory in H.
  apply bind_Ok in H as ([] & k1 & Ho & H). apply store_Ok in Ho as ->.
  apply bind_Ok in H as (opt & k2 & Hl & H). apply load_Ok in Hl as [Hl ->].
  simpl in Hl. rewrite lookup_insert_eq in Hl. injection Hl as <-.
  apply bind_Ok in H as (o & k3 & Hs & H).
  apply solve_Ok in Hs as (name & m' & r & Hn & Hs & -> & ->).
  injection Hn as <-. apply store_Ok in H as ->. simpl in *.
  split; [by exists r|].
  intros q Hq. apply (Hframe _ _ _ _ _ Hs). by apply under_mixer_1_not_mixer_2.
Qed.

(** The case 1 solve hands the solver the whole model. *)
Lemma solve_1_targets_model k k' :
  MixerNotebook.cell_solve_1 fw k = Ok (tt, k') →
  ∃ r, solver fw "ipopt" [] (m k) = Ok (m k', r).
Proof.
  intros H. unfold MixerNotebook.cell_solve_1, SolverFactory in H.
  apply bind_Ok in H as ([] & k1 & Ho & H). apply store_Ok in Ho as ->.
  apply bind_Ok in H as (opt & k2 & Hl & H). apply load_Ok in Hl as [Hl ->].
  simpl in Hl. rewrite lookup_insert_eq in Hl. injection Hl as <-.
  apply bind_Ok in H as (o & k3 & Hs & H).
  apply solve_Ok in Hs as (name & m' & r & Hn & Hs & -> & ->).
  injection Hn as <-. apply store_Ok in H as ->. by exists r.
Qed.

End SolveTarget.

(** The stand-in solver writes only into the block it is handed. *)
Lemma standin_solver_frame on_free_area :
  solver_frame (StandIn.framework on_free_area).
Proof.
  intros name blk m0 m' r H q Hq. unfold StandIn.framework, StandIn.solver in H.
  simpl in H. injection H as <- _. simpl.
  rewrite map_lookup_imap. destruct (vars m0 !! q) as [d|]; [|reflexivity].
  simpl. unfold StandIn.write_back. by rewrite Hq.
Qed.

(** The whole model contains every variable, so the same solver is free
    to write into [m.fs.mixer_1] when it is handed [m]: the case 1 solve of
    the stand-in run gives the outlet flow of [mixer_1] its value. *)
Lemma solve_1_writes_mixer_1 :
  let nb := MixerNotebook.notebook Runs.converging in
  let flow := MixerNotebook.mixer_1 ++ ["outlet"; "flow_mol"; "[0]"] in
  under [] flow = true
  ∧ vars (m (Runs.run_to (take 6 nb))) !! flow = Some (mkVar None false)
  ∧ vars (m (Runs.run_to (take 7 nb))) !! flow = Some (mkVar (Some (NFloat 200)) false).
Proof. vm_compute. done. Qed.

Lemma solve_2_leaves_mixer_1_witness :
  (∃ r, solver Runs.converging "ipopt" MixerNotebook.mixer_2 (m Runs.before_solve_2)
        = Ok (m Runs.after_solve_2, r))
  ∧ ∀ q, under MixerNotebook.mixer_1 q = true →
         vars (m Runs.after_solve_2) !! q = vars (m Runs.before_solve_2) !! q.
Proof.
  apply (solve_2_leaves_mixer_1 Runs.converging).
  - apply standin_solver_frame.
  - apply after_Ok. vm_compute. reflexivity.
Defined.

(** * The counts the notebooks read *)

Section DegreesOfFreedom.
Variable fw : Framework.

Lemma cell_fix_case1_Ok k k' :
  MixerNotebook.cell_fix_case1 k = Ok (tt, k') →
  ∃ m', fix_all MixerNotebook.case1_fixes (m k) = Ok m'
    ∧ k' = mkKernel m' (<["DOF_final" := PInt (degrees_of_freedom [] m')]> (globals k)).
Proof.
  unfold MixerNotebook.cell_fix_case1. intros H. nb_inv H. simplify_eq. eauto.
Qed.

Lemma cell_fix_case2_Ok k k' :
  MixerNotebook.cell_fix_case2 k = Ok (tt, k') →
  ∃ m', fix_all MixerNotebook.case2_fixes (m k) = Ok m'
    ∧ k' = mkKernel m'
        (<["DOF_final" := PInt (degrees_of_freedom MixerNotebook.mixer_2 m')]> (globals k)).
Proof.
  unfold MixerNotebook.cell_fix_case2. intros H. nb_inv H. simplify_eq. eauto.
Qed.

(** Case 1 of the mixer notebook fixes ten unknowns of the model. *)
Lemma case1_fixes_ten_unknowns k k' :
  steady [] MixerNotebook.case1_fixes (m k) →
  MixerNotebook.cell_fix_case1 k = Ok (tt, k') →
  globals k' !! "DOF_final" = Some (PInt (degrees_of_freedom [] (m k) - 10)).
Proof.
  intros Hs (m' & Hf & ->)%cell_fix_case1_Ok. simpl.
  rewrite lookup_insert_eq. do 2 f_equal.
  by rewrite (dof_fix_all [] MixerNotebook.case1_fixes _ _ eq_refl Hs Hf).
Qed.

(** Case 2 fixes nine unknowns of the block [m.fs.mixer_2]. *)
Lemma case2_fixes_nine_unknowns k k' :
  steady MixerNotebook.mixer_2 MixerNotebook.case2_fixes (m k) →
  MixerNotebook.cell_fix_case2 k = Ok (tt, k') →
  globals k' !! "DOF_final"
  = Some (PInt (degrees_of_freedom MixerNotebook.mixer_2 (m k) - 9)).
Proof.
  intros Hs (m' & Hf & ->)%cell_fix_case2_Ok. simpl.
  rewrite lookup_insert_eq. do 2 f_equal.
  by rewrite (dof_fix_all MixerNotebook.mixer_2 MixerNotebook.case2_fixes _ _ eq_refl Hs Hf).
Qed.

(** X9. Mixer notebook, case 2: the fixing cell fixes the pressure of
    [benzene_inlet], at 101325, and leaves the pressure of [toluene_inlet]
    as it was. *)
Lemma case2_fixes_one_pressure k k' idx :
  MixerNotebook.cell_fix_case2 k = Ok (tt, k') →
  vars (m k') !! (MixerNotebook.mixer_2 ++ ["benzene_inlet"; "pressure"] ++ idx)
    = (λ _, mkVar (Some (NInt 101325)) true)
        <$> vars (m k) !! (MixerNotebook.mixer_2 ++ ["benzene_inlet"; "pressure"] ++ idx)
  ∧ vars (m k') !! (MixerNotebook.mixer_2 ++ ["toluene_inlet"; "pressure"] ++ idx)
    = vars (m k) !! (MixerNotebook.mixer_2 ++ ["toluene_inlet"; "pressure"] ++ idx).
Proof.
  intros (m' & Hf & ->)%cell_fix_case2_Ok. simpl. split.
  - rewrite (lookup_fix_all _ _ _ _ Hf). reflexivity.
  - rewrite (lookup_fix_all _ _ _ _ Hf). simpl.
    by destruct (vars (m k) !! _).
Qed.

(** The cell that fixes the shell inlet: the enthalpy it got from [htpx]
    goes to [h] and to the third [fix] call. *)
Lemma cell_fix_shell_inlet_state k k' :
  HeatExchangerNotebook.cell_fix_shell_inlet fw k = Ok (tt, k') →
  ∃ h m', htpx fw (NInt 450) (NInt 101325) = Ok h
    ∧ fix_all (HeatExchangerNotebook.shell_inlet_fixes h) (m k) = Ok m'
    ∧ k' = mkKernel m'
        (<["DOF_initial" := PInt (degrees_of_freedom [] m')]>
           (<["h" := of_num h]> (globals k))).
Proof.
  unfold HeatExchangerNotebook.cell_fix_shell_inlet. intros H.
  nb_inv H. cbn [m globals] in *. simplify_eq. eauto.
Qed.

Lemma cell_fix_tube_inlet_state k k' :
  HeatExchangerNotebook.cell_fix_tube_inlet k = Ok (tt, k') →
  ∃ m', fix_all HeatExchangerNotebook.tube_inlet_fixes (m k) = Ok m'
    ∧ k' = mkKernel m' (<["DOF_final" := PInt (degrees_of_freedom [] m')]> (globals k)).
Proof.
  unfold HeatExchangerNotebook.cell_fix_tube_inlet. intros H.
  nb_inv H. cbn [m] in *. simplify_eq. eauto.
Qed.

Lemma cell_option1_fix_Ok k k' :
  HeatExchangerNotebook.cell_option1_fix k = Ok (tt, k') →
  ∃ m', fix_all HeatExchangerNotebook.option1_fixes (m k) = Ok m'
    ∧ k' = mkKernel m' (<["DOF_final" := PInt (degrees_of_freedom [] m')]> (globals k)).
Proof.
  unfold HeatExchangerNotebook.cell_option1_fix. intros H.
  nb_inv H. cbn [m] in *. simplify_eq. eauto.
Qed.

(** The three fixing cells of the heat-exchanger notebook, run in a row,
    are one run of [fix] calls. *)
Lemma option1_fixes_run k k' :
  run_all [HeatExchangerNotebook.cell_fix_shell_inlet fw;
           HeatExchangerNotebook.cell_fix_tube_inlet;
           HeatExchangerNotebook.cell_option1_fix] k = Ok (tt, k') →
  ∃ h m', htpx fw (NInt 450) (NInt 101325) = Ok h
    ∧ fix_all (HeatExchangerNotebook.option1_fixes_all h) (m k) = Ok m'
    ∧ m k' = m'
    ∧ globals k' !! "DOF_final" = Some (PInt (degrees_of_freedom [] m')).
Proof.
  intros H. rewrite run_all_cons in H.
  destruct (HeatExchangerNotebook.cell_fix_shell_inlet fw k) as [[[] k1]|] eqn:H1;
    [|discriminate].
  rewrite run_all_cons in H.
  destruct (HeatExchangerNotebook.cell_fix_tube_inlet k1) as [[[] k2]|] eqn:H2;
    [|discriminate].
  rewrite run_all_cons in H.
  destruct (HeatExchangerNotebook.cell_option1_fix k2) as [[[] k3]|] eqn:H3;
    [|discriminate].
  injection H as <-.
  apply cell_fix_shell_inlet_state in H1 as (h & m1 & Hh & F1 & ->).
  apply cell_fix_tube_inlet_state in H2 as (m2 & F2 & ->).
  apply cell_option1_fix_Ok in H3 as (m3 & F3 & ->). cbn [m globals] in *.
  exists h, m3. split; [done|]. split; [|split; [done | apply lookup_insert_eq]].
  unfold HeatExchangerNotebook.option1_fixes_all.
  apply fix_all_app. exists m1. split; [done|]. apply fix_all_app. eauto.
Qed.

(** The heat-exchanger notebook fixes ten unknowns of the model before
    its first solve: three on the shell inlet, five on the tube inlet,
    the area and the overall heat transfer coefficient. *)
Lemma option1_fixes_ten_unknowns k k' h :
  steady [] (HeatExchangerNotebook.option1_fixes_all h) (m k) →
  run_all [HeatExchangerNotebook.cell_fix_shell_inlet fw;
           HeatExchangerNotebook.cell_fix_tube_inlet;
           HeatExchangerNotebook.cell_option1_fix] k = Ok (tt, k') →
  globals k' !! "DOF_final" = Some (PInt (degrees_of_freedom [] (m k) - 10)).
Proof.
  intros Hs (h' & m' & _ & Hf & _ & ->)%option1_fixes_run. do 2 f_equal.
  apply (steady_paths _ _ (HeatExchangerNotebook.option1_fixes_all h') _ eq_refl) in Hs.
  by rewrite (dof_fix_all [] (HeatExchangerNotebook.option1_fixes_all h') _ _ eq_refl Hs Hf).
Qed.

(** The cell that builds the unit binds [DOF_initial] to the count of the
    model it leaves. *)
Lemma cell_mixer_1_Ok k k' :
  MixerNotebook.cell_mixer_1 fw k = Ok (tt, k') →
  globals k' = <["DOF_initial" := PInt (degrees_of_freedom [] (m k'))]> (globals k).
Proof.
  unfold MixerNotebook.cell_mixer_1. intros H. nb_inv H. by simplify_eq.
Qed.

Lemma cell_heat_exchanger_Ok k k' :
  HeatExchangerNotebook.cell_heat_exchanger fw k = Ok (tt, k') →
  globals k' = <["DOF_initial" := PInt (degrees_of_freedom [] (m k'))]> (globals k).
Proof.
  unfold HeatExchangerNotebook.cell_heat_exchanger. intros H. nb_inv H. by simplify_eq.
Qed.

Lemma assert_eq_int_Ok name z k k' :
  assert_eq_int name z k = Ok (tt, k') →
  k' = k ∧ ∃ d, globals k !! name = Some d ∧ eq_int d z = true.
Proof. unfold assert_eq_int. intros H. nb_inv H. split; [done | eauto]. Qed.

Lemma eq_int_PInt y z : eq_int (PInt y) z = true → y = z.
Proof.
  unfold eq_int, num_eqb. simpl. destruct (y ?= z)%Z eqn:E; try discriminate.
  intros _. by apply Z.compare_eq.
Qed.

(** X5. Mixer notebook, case 1: in a run that passes
    [assert DOF_initial == 10] on a steady model, the fixing cell binds
    [DOF_final] to 0: it fixes ten distinct unknowns. *)
Lemma case1_DOF_final_zero k0 k1 k2 :
  MixerNotebook.cell_mixer_1 fw k0 = Ok (tt, k1) →
  steady [] MixerNotebook.case1_fixes (m k1) →
  run_all [MixerNotebook.cell_test_DOF_initial; MixerNotebook.cell_fix_case1] k1
    = Ok (tt, k2) →
  globals k2 !! "DOF_final" = Some (PInt 0).
Proof.
  intros Hg%cell_mixer_1_Ok Hs H. rewrite run_all_cons in H.
  destruct (MixerNotebook.cell_test_DOF_initial k1) as [[[] k1']|] eqn:Ht;
    [|discriminate].
  apply assert_eq_int_Ok in Ht as (-> & d & Hd & He).
  rewrite Hg, lookup_insert_eq in Hd. injection Hd as <-.
  apply eq_int_PInt in He. rewrite run_all_cons in H.
  destruct (MixerNotebook.cell_fix_case1 k1) as [[[] k2']|] eqn:Hf; [|discriminate].
  injection H as <-.
  rewrite (case1_fixes_ten_unknowns _ _ Hs Hf), He. reflexivity.
Qed.

(** X7. Heat-exchanger notebook: in a run that passes
    [assert DOF_initial == 10] on a steady model, the last of the three
    fixing cells binds [DOF_final] to 0: together they fix ten distinct
    unknowns.  Whether the model is steady does not depend on the enthalpy
    [h]. *)
Lemma option1_DOF_final_zero k0 k1 k2 h :
  HeatExchangerNotebook.cell_heat_exchanger fw k0 = Ok (tt, k1) →
  steady [] (HeatExchangerNotebook.option1_fixes_all h) (m k1) →
  run_all [HeatExchangerNotebook.cell_test_DOF_initial;
           HeatExchangerNotebook.cell_fix_shell_inlet fw;
           HeatExchangerNotebook.cell_fix_tube_inlet;
           HeatExchangerNotebook.cell_option1_fix] k1 = Ok (tt, k2) →
  globals k2 !! "DOF_final" = Some (PInt 0).
Proof.
  intros Hg%cell_heat_exchanger_Ok Hs H. rewrite run_all_cons in H.
  destruct (HeatExchangerNotebook.cell_test_DOF_initial k1) as [[[] k1']|] eqn:Ht;
    [|discriminate].
  apply assert_eq_int_Ok in Ht as (-> & d & Hd & He).
  rewrite Hg, lookup_insert_eq in Hd. injection Hd as <-.
  apply eq_int_PInt in He.
  rewrite (option1_fixes_ten_unknowns _ _ _ Hs H), He. reflexivity.
Qed.

End DegreesOfFreedom.

(** The models the stand-in framework declares are steady. *)
Lemma standin_mixer_1_steady :
  steady [] MixerNotebook.case1_fixes
    (m (Runs.run_to (take 2 (MixerNotebook.notebook Runs.converging)))).
Proof. unfold steady. apply (bool_decide_unpack _). vm_compute. exact I. Qed.

Lemma standin_heat_exchanger_steady h :
  steady [] (HeatExchangerNotebook.option1_fixes_all h)
    (m (Runs.run_to (take 2 (HeatExchangerNotebook.notebook Runs.converging)))).
Proof.
  apply (steady_paths _ (HeatExchangerNotebook.option1_fixes_all (NInt 0)) _ _ eq_refl).
  unfold steady. apply (bool_decide_unpack _). vm_compute. exact I.
Qed.

(** On the stand-in framework with a solver that converges, both notebooks
    run to their end. *)
Lemma mixer_notebook_runs :
  raised (run_all (MixerNotebook.notebook Runs.converging) fresh_kernel) = None.
Proof. vm_compute. reflexivity. Qed.

Lemma heat_exchanger_notebook_runs :
  raised (run_all (HeatExchangerNotebook.notebook Runs.converging) fresh_kernel) = None.
Proof. vm_compute. reflexivity. Qed.

(** * What the fixing cells do to the model *)

Section Fixing.
Implicit Types (m : ConcreteModel) (p q blk : path).

Lemma has_component_fix p v m m' p' :
  fix_ p v m = Ok m' → has_component p' m' = has_component p' m.
Proof.
  intros ->%fix_Ok. unfold has_component. simpl.
  rewrite (dom_imap_L _ _ (dom (vars m))); [done|].
  intros q. rewrite elem_of_dom. unfold set_fixed. split.
  - intros [d Hd]. exists d. split; [done | by eexists].
  - intros (d & Hd & _). by exists d.
Qed.

Lemma first_error_fix p v m m' ps :
  fix_ p v m = Ok m' → first_error ps m' = first_error ps m.
Proof.
  intros H. induction ps as [|p' ps IH]; [done|].
  rewrite !first_error_cons, IH. unfold lookup_error.
  rewrite (missing_step_ext _ _ m m'); [done|].
  intros p''. by apply (has_component_fix p v).
Qed.

(** A run of [fix] calls stops at the first component that cannot be
    reached in the model it started with: fixing a variable takes no
    component away. *)
Lemma fix_all_raised fs m :
  raised (fix_all fs m) = first_error fs.*1 m.
Proof.
  revert m. induction fs as [|[p v] fs IH]; intros m; [done|].
  rewrite fmap_cons, first_error_cons. cbn [fix_all fst].
  destruct (fix_ p v m) as [m1|e] eqn:E.
  - rewrite IH, (first_error_fix _ _ _ _ _ E).
    unfold fix_ in E. by destruct (lookup_error p m).
  - unfold fix_ in E. destruct (lookup_error p m); by simplify_eq.
Qed.

Lemma fixed_by_miss fs q d :
  Forall (λ p, under p q = false) fs.*1 → fixed_by fs q d = d.
Proof.
  unfold fixed_by. revert d. induction fs as [|[p v] fs IH]; intros d H; simpl; [done|].
  inversion_clear H as [|? ? Hp Hf]. simpl in Hp. rewrite Hp. by apply IH.
Qed.

Lemma fixed_by_hit fs p v q d :
  all_apart fs.*1 = true → (p, v) ∈ fs → under p q = true →
  fixed_by fs q d = mkVar (Some v) true.
Proof.
  revert d. induction fs as [|[p0 v0] fs IH]; intros d Ha Hin Hq; simpl in *.
  { by apply elem_of_nil in Hin. }
  apply andb_prop in Ha as [Hp Ha].
  apply elem_of_cons in Hin as [[= <- <-]|Hin].
  - unfold fixed_by. simpl. rewrite Hq. apply fixed_by_miss.
    rewrite forallb_forall in Hp. apply Forall_forall. intros p' Hp'.
    apply list_elem_of_In, Hp in Hp'.
    destruct (under p' q) eqn:E; [|done].
    by rewrite (under_both_not_apart _ _ _ Hq E) in Hp'.
  - unfold fixed_by. simpl. by apply IH.
Qed.

End Fixing.

Section FixingCells.
Variable fw : Framework.
Implicit Types (k : Kernel).

Lemma fix_all_effect fs m0 m' :
  all_apart fs.*1 = true →
  fix_all fs m0 = Ok m' →
  (∀ p v q d, (p, v) ∈ fs → under p q = true → vars m0 !! q = Some d →
     vars m' !! q = Some (mkVar (Some v) true))
  ∧ (∀ q, Forall (λ p, under p q = false) fs.*1 → vars m' !! q = vars m0 !! q).
Proof.
  intros Ha H. split.
  - intros p v q d Hin Hq Hd. rewrite (lookup_fix_all _ _ _ q H), Hd. simpl.
    f_equal. by apply (fixed_by_hit fs p v q d).
  - intros q Hq. rewrite (lookup_fix_all _ _ _ q H).
    destruct (vars m0 !! q) as [d|]; simpl; [|done].
    f_equal. by apply (fixed_by_miss fs q d).
Qed.

Lemma fix_all_constraints fs m0 m' :
  fix_all fs m0 = Ok m' → constraints m' = constraints m0.
Proof.
  revert m0. induction fs as [|[p v] fs IH]; intros m0 H; simpl in H.
  - by injection H as <-.
  - destruct (fix_ p v m0) as [m1|] eqn:E; [|discriminate].
    rewrite (IH _ H). by apply fix_Ok in E as ->.
Qed.

(** X11. Mixer notebook, case 1: after the fixing cell every variable of a
    component it names is fixed at the value given for that component (no
    later call of the cell overrides an earlier one), every variable
    outside these components is as it was, and no constraint is added or
    removed. *)
Theorem case1_fixing_effect k k' :
  MixerNotebook.cell_fix_case1 k = Ok (tt, k') →
  (∀ p v q d, (p, v) ∈ MixerNotebook.case1_fixes → under p q = true →
     vars (m k) !! q = Some d → vars (m k') !! q = Some (mkVar (Some v) true))
  ∧ (∀ q, Forall (λ p, under p q = false) MixerNotebook.case1_fixes.*1 →
       vars (m k') !! q = vars (m k) !! q)
  ∧ constraints (m k') = constraints (m k).
Proof.
  intros (m' & Hf & ->)%cell_fix_case1_Ok. cbn [m].
  destruct (fix_all_effect MixerNotebook.case1_fixes _ _ eq_refl Hf) as [H1 H2].
  repeat split; [exact H1 | exact H2 | by apply fix_all_constraints in Hf].
Qed.

(** X12. Mixer notebook, case 2: the same for the nine calls of the case 2
    fixing cell; in particular no variable of [m.fs.mixer_1] changes. *)
Theorem case2_fixing_effect k k' :
  MixerNotebook.cell_fix_case2 k = Ok (tt, k') →
  (∀ p v q d, (p, v) ∈ MixerNotebook.case2_fixes → under p q = true →
     vars (m k) !! q = Some d → vars (m k') !! q = Some (mkVar (Some v) true))
  ∧ (∀ q, Forall (λ p, under p q = false) MixerNotebook.case2_fixes.*1 →
       vars (m k') !! q = vars (m k) !! q)
  ∧ (∀ q, under MixerNotebook.mixer_1 q = true → vars (m k') !! q = vars (m k) !! q)
  ∧ constraints (m k') = constraints (m k).
Proof.
  intros (m' & Hf & ->)%cell_fix_case2_Ok. cbn [m].
  destruct (fix_all_effect MixerNotebook.case2_fixes _ _ eq_refl Hf) as [H1 H2].
  repeat split; [exact H1 | exact H2 | | by apply fix_all_constraints in Hf].
  intros q Hq%under_mixer_1_not_mixer_2. apply H2.
  repeat constructor; simpl;
    match goal with
    | |- under ?p q = false =>
        destruct (under p q) eqn:E; [|done];
        change p with (MixerNotebook.mixer_2 ++ drop 2 p) in E;
        apply under_app_l in E; congruence
    end.
Qed.

Lemma fix_then_count_raised fs blk name k :
  raised ((update_model (fix_all fs) ;;
           dof ← read_model (λ m, Ok (degrees_of_freedom blk m)) ;
           store name (PInt dof)) k)
  = first_error fs.*1 (m k).
Proof.
  rewrite <-fix_all_raised. unfold mbind, NB_bind, update_model, read_model, store.
  by destruct (fix_all fs (m k)).
Qed.

(** Where the walk to a component stops: with [p] there and its member
    [s] missing, the error is a [KeyError] when [s] is an index and an
    [AttributeError] when it is an attribute. *)
Lemma lookup_error_member p s m0 :
  p ≠ [] → has_component p m0 = true → has_component (p ++ [s]) m0 = false →
  lookup_error (p ++ [s]) m0 = Some (if is_index s then KeyError else AttributeError).
Proof.
  intros Hne Hp Hs. unfold lookup_error.
  assert (H : ∀ seen rest, rest ≠ [] → has_component (seen ++ rest) m0 = true →
              has_component (seen ++ rest ++ [s]) m0 = false →
              missing_step seen (rest ++ [s]) m0
              = Some (if is_index s then KeyError else AttributeError)).
  { intros seen rest. revert seen.
    induction rest as [|a rest IH]; intros seen Hr H1 H2; [done|]. simpl.
    assert (Ha : has_component (seen ++ [a]) m0 = true).
    { apply (has_component_app _ rest). by rewrite <-app_assoc. }
    rewrite Ha. destruct rest as [|b rest].
    - simpl. rewrite (app_assoc seen [a] [s]) in H2. by rewrite H2.
    - apply IH; [done | by rewrite <-app_assoc | by rewrite <-!app_assoc]. }
  by apply (H [] p).
Qed.

(** X14. Mixer notebook: each fixing cell stops at the first component, in
    the order of its calls, that cannot be reached in the model it started
    with, and with the error of that lookup: a [KeyError] for a missing
    index, an [AttributeError] for a missing attribute.  It runs through
    exactly when all its components are there. *)
Theorem mixer_fixing_needs_components k :
  ( raised (MixerNotebook.cell_fix_case1 k)
    = first_error MixerNotebook.case1_fixes.*1 (m k)
  ∧ raised (MixerNotebook.cell_fix_case2 k)
    = first_error MixerNotebook.case2_fixes.*1 (m k) )
  ∧ ( (raised (MixerNotebook.cell_fix_case1 k) = None ↔
       forallb (λ p, has_component p (m k)) MixerNotebook.case1_fixes.*1 = true)
    ∧ (raised (MixerNotebook.cell_fix_case2 k) = None ↔
       forallb (λ p, has_component p (m k)) MixerNotebook.case2_fixes.*1 = true) )
  ∧ ∀ e, raised (MixerNotebook.cell_fix_case1 k) = Some e
         ∨ raised (MixerNotebook.cell_fix_case2 k) = Some e →
         e = KeyError ∨ e = AttributeError.
Proof.
  unfold MixerNotebook.cell_fix_case1, MixerNotebook.cell_fix_case2.
  rewrite !fix_then_count_raised. split; [done|]. split.
  - split; apply first_error_None; repeat constructor; done.
  - intros e [H|H]; by eapply first_error_kind.
Qed.

(** X13. Heat-exchanger notebook: after the three fixing cells every
    variable of a component they name is fixed at the value given for it,
    the shell inlet enthalpy at the number [htpx] returned, every other
    variable is as it was, and the constraints are the same. *)
Theorem option1_fixing_effect k k' :
  run_all [HeatExchangerNotebook.cell_fix_shell_inlet fw;
           HeatExchangerNotebook.cell_fix_tube_inlet;
           HeatExchangerNotebook.cell_option1_fix] k = Ok (tt, k') →
  ∃ h, htpx fw (NInt 450) (NInt 101325) = Ok h ∧
  let fs := HeatExchangerNotebook.option1_fixes_all h in
  (∀ p v q d, (p, v) ∈ fs → under p q = true →
     vars (m k) !! q = Some d → vars (m k') !! q = Some (mkVar (Some v) true))
  ∧ (∀ q, Forall (λ p, under p q = false) fs.*1 →
       vars (m k') !! q = vars (m k) !! q)
  ∧ constraints (m k') = constraints (m k).
Proof.
  intros (h & m' & Hh & Hf & <- & _)%option1_fixes_run. exists h. split; [done|].
  intros fs.
  destruct (fix_all_effect fs _ _ eq_refl Hf) as [H1 H2].
  repeat split; [exact H1 | exact H2 | by apply fix_all_constraints in Hf].
Qed.

Lemma cell_fix_shell_inlet_raised k :
  raised (HeatExchangerNotebook.cell_fix_shell_inlet fw k)
  = match htpx fw (NInt 450) (NInt 101325) with
    | Raise e => Some e
    | Ok h => first_error (HeatExchangerNotebook.shell_inlet_fixes h).*1 (m k)
    end.
Proof.
  unfold HeatExchangerNotebook.cell_fix_shell_inlet.
  unfold mbind at 1. unfold NB_bind at 1. unfold lift.
  destruct (htpx fw (NInt 450) (NInt 101325)) as [h|e]; [|done].
  unfold mbind at 1. unfold NB_bind at 1. unfold store at 1.
  apply (fix_then_count_raised _ [] "DOF_initial"
           (mkKernel (m k) (<["h" := of_num h]> (globals k)))).
Qed.

(** X15. Heat-exchanger notebook: the shell inlet cell first calls [htpx]
    and stops with its error if it raises; after that, and in the two
    other fixing cells, a cell stops at the first component, in the order
    of its calls, that cannot be reached in the model it started with: a
    [KeyError] for a missing index, an [AttributeError] for a missing
    attribute.  When [htpx] returns, a cell runs through exactly when
    all its components are there. *)
Theorem heat_exchanger_fixing_needs_components k :
  ( raised (HeatExchangerNotebook.cell_fix_shell_inlet fw k)
    = match htpx fw (NInt 450) (NInt 101325) with
      | Raise e => Some e
      | Ok h => first_error (HeatExchangerNotebook.shell_inlet_fixes h).*1 (m k)
      end
  ∧ raised (HeatExchangerNotebook.cell_fix_tube_inlet k)
    = first_error HeatExchangerNotebook.tube_inlet_fixes.*1 (m k)
  ∧ raised (HeatExchangerNotebook.cell_option1_fix k)
    = first_error HeatExchangerNotebook.option1_fixes.*1 (m k) )
  ∧ ( (∀ h, htpx fw (NInt 450) (NInt 101325) = Ok h →
         (raised (HeatExchangerNotebook.cell_fix_shell_inlet fw k) = None ↔
          forallb (λ p, has_component p (m k))
            (HeatExchangerNotebook.shell_inlet_fixes h).*1 = true))
    ∧ (raised (HeatExchangerNotebook.cell_fix_tube_inlet k) = None ↔
       forallb (λ p, has_component p (m k)) HeatExchangerNotebook.tube_inlet_fixes.*1 = true)
    ∧ (raised (HeatExchangerNotebook.cell_option1_fix k) = None ↔
       forallb (λ p, has_component p (m k)) HeatExchangerNotebook.option1_fixes.*1 = true) )
  ∧ ∀ e, raised (HeatExchangerNotebook.cell_fix_tube_inlet k) = Some e
         ∨ raised (HeatExchangerNotebook.cell_option1_fix k) = Some e →
         e = KeyError ∨ e = AttributeError.
Proof.
  rewrite cell_fix_shell_inlet_raised.
  unfold HeatExchangerNotebook.cell_fix_tube_inlet, HeatExchangerNotebook.cell_option1_fix.
  rewrite !fix_then_count_raised. split; [done|]. split.
  - split; [|split].
    + intros h ->. apply first_error_None; repeat constructor; done.
    + apply first_error_None; repeat constructor; done.
    + apply first_error_None; repeat constructor; done.
  - intros e [H|H]; by eapply first_error_kind.
Qed.

(** X8. Heat-exchanger notebook: the cell that fixes the shell inlet binds
    [DOF_initial] again.  In a run that passed [assert DOF_initial == 10]
    on a steady model the name then holds 7, and the same assertion run
    after that cell fails. *)
Theorem DOF_initial_rebound k0 k1 k2 h :
  HeatExchangerNotebook.cell_heat_exchanger fw k0 = Ok (tt, k1) →
  steady [] (HeatExchangerNotebook.shell_inlet_fixes h) (m k1) →
  raised (HeatExchangerNotebook.cell_test_DOF_initial k1) = None →
  HeatExchangerNotebook.cell_fix_shell_inlet fw k1 = Ok (tt, k2) →
  globals k2 !! "DOF_initial" = Some (PInt 7)
  ∧ raised (HeatExchangerNotebook.cell_test_DOF_initial k2) = Some AssertionError.
Proof.
  intros Hg%cell_heat_exchanger_Ok Hs Ht (h' & m2 & _ & Hf & ->)%cell_fix_shell_inlet_state.
  destruct (HeatExchangerNotebook.cell_test_DOF_initial k1) as [[[] k1']|] eqn:E;
    [|discriminate].
  apply assert_eq_int_Ok in E as (-> & d & Hd & He).
  rewrite Hg, lookup_insert_eq in Hd. injection Hd as <-. apply eq_int_PInt in He.
  apply (steady_paths _ _ (HeatExchangerNotebook.shell_inlet_fixes h') _ eq_refl) in Hs.
  assert (Hc : degrees_of_freedom [] m2 = 7%Z).
  { rewrite (dof_fix_all [] (HeatExchangerNotebook.shell_inlet_fixes h')
               _ _ eq_refl Hs Hf), He. reflexivity. }
  cbn [globals]. rewrite Hc.
  split; [apply lookup_insert_eq|].
  unfold HeatExchangerNotebook.cell_test_DOF_initial, assert_eq_int.
  unfold mbind, NB_bind, load. cbn [globals]. by rewrite lookup_insert_eq.
Qed.

(** X6. Mixer notebook, case 2: in a run that passes
    [assert DOF_init == 9] on a steady block, the fixing cell binds
    [DOF_final] to 0, a value the notebook never asserts. *)
Theorem case2_DOF_final_zero k k' :
  steady MixerNotebook.mixer_2 MixerNotebook.case2_fixes (m k) →
  run_all [MixerNotebook.cell_DOF_init; MixerNotebook.cell_test_DOF_init;
           MixerNotebook.cell_fix_case2] k = Ok (tt, k') →
  globals k' !! "DOF_final" = Some (PInt 0).
Proof.
  intros Hs H. rewrite run_all_cons in H.
  destruct (MixerNotebook.cell_DOF_init k) as [[[] k1]|] eqn:H1; [|discriminate].
  unfold MixerNotebook.cell_DOF_init in H1. nb_inv H1. simplify_eq.
  rewrite run_all_cons in H.
  destruct (MixerNotebook.cell_test_DOF_init _) as [[[] k2]|] eqn:H2; [|discriminate].
  apply assert_eq_int_Ok in H2 as (-> & d & Hd & He).
  cbn [globals] in Hd. rewrite lookup_insert_eq in Hd. injection Hd as <-.
  apply eq_int_PInt in He. rewrite run_all_cons in H.
  destruct (MixerNotebook.cell_fix_case2 _) as [[[] k3]|] eqn:H3; [|discriminate].
  injection H as <-.
  rewrite (case2_fixes_nine_unknowns (mkKernel (m k) _) _ Hs H3). cbn [m].
  by rewrite He.
Qed.

End FixingCells.

(** * Freeing a variable: Option 2 *)

Section Unfixing.
Implicit Types (m : ConcreteModel) (p q blk : path).

Lemma unfix_Ok p m m' :
  unfix p m = Ok m' →
  m' = mkModel (map_imap (set_unfixed p) (vars m)) (constraints m).
Proof. unfold unfix. destruct (lookup_error p m); intros H; by simplify_eq. Qed.

Lemma lookup_unfix p m m' q :
  unfix p m = Ok m' →
  vars m' !! q = (λ d, if under p q then mkVar (value d) false else d) <$> vars m !! q.
Proof.
  intros ->%unfix_Ok. simpl. rewrite map_lookup_imap.
  by destruct (vars m !! q).
Qed.

Lemma free_under_unfix_apart blk p1 p2 m m' :
  apart p1 p2 = true →
  unfix p1 m = Ok m' →
  free_under blk p2 m' = free_under blk p2 m.
Proof.
  intros Ha H. unfold free_under. f_equal.
  rewrite !map_filter_filter. apply map_filter_strong_ext_1.
  intros q d. simpl. rewrite (lookup_unfix _ _ _ q H).
  destruct (under p2 q) eqn:E2.
  2: { split; intros [[? ?] _]; discriminate. }
  destruct (under p1 q) eqn:E1.
  { by rewrite (under_both_not_apart _ _ _ E1 E2) in Ha. }
  by destruct (vars m !! q).
Qed.

Lemma dof_unfix blk p m m' :
  unfix p m = Ok m' →
  degrees_of_freedom blk m'
  = (degrees_of_freedom blk m + Z.of_nat (fixed_under blk p m))%Z.
Proof.
  intros H. unfold degrees_of_freedom, fixed_under.
  rewrite (unfix_Ok _ _ _ H) at 2. cbn [constraints].
  set (G := λ kv : path * VarData,
         under blk kv.1 = true ∧ (fixed kv.2 = false ∨ under p kv.1 = true)).
  assert (H1 : size (filter (λ kv, is_free blk kv.1 kv.2 = true) (vars m'))
               = size (filter G (vars m))).
  { rewrite <-!size_dom. f_equal. apply set_eq. intros q.
    rewrite !elem_of_dom. unfold is_Some.
    setoid_rewrite map_lookup_filter_Some. rewrite (lookup_unfix _ _ _ q H).
    unfold G, is_free. simpl. split.
    - intros (d' & Hd & Hf). destruct (vars m !! q) as [d|] eqn:E; [|discriminate].
      simpl in Hd. injection Hd as <-. exists d. split; [done|].
      apply andb_prop in Hf as [Hb Hf]. split; [done|].
      destruct (under p q); [by right | left; by destruct (fixed d)].
    - intros (d & Hd & Hb & Hf). rewrite Hd. simpl. eexists. split; [done|].
      rewrite Hb. simpl. destruct (under p q); [done|].
      destruct Hf as [->|?]; done. }
  rewrite H1.
  rewrite (size_filter_split (λ kv, fixed kv.2 = false) (filter G (vars m))).
  rewrite !map_filter_filter.
  assert (H2 : filter (λ '(i, x), fixed (i, x).2 = false ∧ G (i, x)) (vars m)
               = filter (λ kv, is_free blk kv.1 kv.2 = true) (vars m)).
  { apply map_filter_ext. intros q d _. unfold G, is_free. simpl.
    destruct (under blk q), (fixed d); simpl; intuition congruence. }
  assert (H3 : filter (λ '(i, x), ¬ fixed (i, x).2 = false ∧ G (i, x)) (vars m)
               = filter (λ kv, under p kv.1 = true ∧ under blk kv.1 = true
                               ∧ fixed kv.2 = true) (vars m)).
  { apply map_filter_ext. intros q d _. unfold G. simpl.
    destruct (under blk q), (fixed d), (under p q); simpl; intuition congruence. }
  rewrite H2, H3. lia.
Qed.

End Unfixing.

Section Option2.
Variable fw : Framework.

Lemma cell_option2_fix_Ok k k' :
  HeatExchangerNotebook.cell_option2_fix fw k = Ok (tt, k') →
  ∃ h m1 m2, unfix area (m k) = Ok m1
    ∧ htpx fw (NInt 360) (NInt 101325) = Ok h
    ∧ fix_ shell_outlet_enth_mol h m1 = Ok m2
    ∧ k' = mkKernel m2 (globals k).
Proof.
  unfold HeatExchangerNotebook.cell_option2_fix. intros H. nb_inv H.
  cbn [m globals] in *. eauto 10.
Qed.

(** X16. Heat-exchanger notebook, Option 2: the cell frees the area and
    keeps its value, fixes the shell outlet enthalpy at the number that
    [htpx] returned for 360 K, and leaves every other variable and every
    global name as it was. *)
Theorem option2_fixing_effect k k' :
  HeatExchangerNotebook.cell_option2_fix fw k = Ok (tt, k') →
  ∃ h, htpx fw (NInt 360) (NInt 101325) = Ok h ∧
  (∀ q d, under area q = true → vars (m k) !! q = Some d →
     vars (m k') !! q = Some (mkVar (value d) false))
  ∧ (∀ q d, under shell_outlet_enth_mol q = true → vars (m k) !! q = Some d →
       vars (m k') !! q = Some (mkVar (Some h) true))
  ∧ (∀ q, under area q = false → under shell_outlet_enth_mol q = false →
       vars (m k') !! q = vars (m k) !! q)
  ∧ globals k' = globals k.
Proof.
  intros (h & m1 & m2 & Hu & Hh & Hf & ->)%cell_option2_fix_Ok. cbn [m globals].
  exists h. split; [done|]. repeat split.
  - intros q d Hq Hd.
    rewrite (lookup_fix _ _ _ _ q Hf), (lookup_unfix _ _ _ q Hu), Hd. simpl.
    destruct (under shell_outlet_enth_mol q) eqn:E.
    { by pose proof (under_both_not_apart area shell_outlet_enth_mol q Hq E). }
    by rewrite Hq.
  - intros q d Hq Hd.
    rewrite (lookup_fix _ _ _ _ q Hf), (lookup_unfix _ _ _ q Hu), Hd. simpl.
    by rewrite Hq.
  - intros q Ha Hs.
    rewrite (lookup_fix _ _ _ _ q Hf), (lookup_unfix _ _ _ q Hu), Ha, Hs.
    by destruct (vars (m k) !! q).
Qed.

(** X17. Heat-exchanger notebook, Option 2: with the area one fixed
    variable and the shell outlet enthalpy one unknown, the cell leaves the
    count of unknowns minus constraints where it was. *)
Theorem option2_keeps_count k k' :
  fixed_under [] area (m k) = 1%nat →
  free_under [] shell_outlet_enth_mol (m k) = 1%nat →
  HeatExchangerNotebook.cell_option2_fix fw k = Ok (tt, k') →
  degrees_of_freedom [] (m k') = degrees_of_freedom [] (m k).
Proof.
  intros Ha Hs (h & m1 & m2 & Hu & _ & Hf & ->)%cell_option2_fix_Ok. cbn [m].
  rewrite (dof_fix _ _ _ _ _ Hf), (dof_unfix _ _ _ _ Hu), Ha.
  rewrite (free_under_unfix_apart [] area shell_outlet_enth_mol _ _ eq_refl Hu), Hs.
  lia.
Qed.

End Option2.

(** * The testing cell of Option 2 *)

Section Option2Test.
Variable fw : Framework.

Lemma assert_optimal_ok_passes name k :
  globals k !! "TerminationCondition"
    = Some (PImported "pyomo.opt" "TerminationCondition") →
  globals k !! "SolverStatus" = Some (PImported "pyomo.opt" "SolverStatus") →
  raised (assert_optimal_ok name k) = None ↔
  ∃ r, globals k !! name = Some (PResults r) ∧ converged r = true.
Proof.
  intros Ht Hs. rewrite assert_optimal_ok_outcome by done. split.
  - destruct (globals k !! name) as [[| | | |r| |]|]; try discriminate.
    destruct (converged r) eqn:E; [eauto | discriminate].
  - intros (r & -> & ->). reflexivity.
Qed.

Lemma check_value_last p e tol k :
  globals k !! "pytest" = Some (PModule "pytest") →
  raised ((t ← read_model (pyo_value p) ; assert_approx t e tol) k) = None
  ↔ within (m k) p e tol.
Proof.
  intros Hp. rewrite raised_bind. split.
  - intros (t & k1 & [Ht ->]%read_model_Ok & H).
    rewrite assert_approx_run in H by done.
    destruct (approx t e tol) as [[]|] eqn:E; try discriminate.
    by eapply approx_pyo_value.
  - intros (v & Hr & Ha). exists (of_num v), k. split.
    + apply read_model_Ok. split; [|done]. apply pyo_value_Ok. eauto.
    + by rewrite assert_approx_run, Ha.
Qed.

(** What the cell does with the three imported names bound and a results
    object in [solve_status]: nothing but that object and the two values
    it reads from the model matters. *)
Lemma cell_option2_test_verdict k r1 :
  testing_imports k →
  globals k !! "solve_status" = Some (PResults r1) →
  (converged r1 = false →
     raised (HeatExchangerNotebook.cell_option2_test k) = Some AssertionError)
  ∧ (converged r1 = true →
     (raised (HeatExchangerNotebook.cell_option2_test k) = None ↔
      within (m k) area (NFloat 200.26) (NFloat 1e-2)
      ∧ within (m k) tube_outlet_temperature (NFloat 371.27) (NFloat 1e-2))).
Proof.
  intros (Ht & Hs & Hp) Hr. unfold HeatExchangerNotebook.cell_option2_test.
  split; intros Hc; unfold mbind at 1; unfold NB_bind at 1;
    rewrite (assert_optimal_ok_run "solve_status" k r1 Ht Hs Hr), Hc; [done|].
  rewrite (check_value_run _ _ _ _ k Hp). by rewrite (check_value_last _ _ _ k Hp).
Qed.

(** C9. In the heat-exchanger notebook the testing cell after the second
    solve (Option 2) asserts on the object bound to [solve_status], which
    the second solve does not touch: the second solve binds what the
    solver returned to [result].  So with the results object [r1] of the
    first solve in [solve_status], and whatever the second solve returned:
    when [r1] does not report optimal and ok the cell raises an assertion
    error; when it does, the two assertions on the status pass, and the
    cell raises nothing exactly when the area and the tube outlet
    temperature it reads are within their tolerances. *)
Theorem option2_asserts_read_solve_status k r1 k' :
  testing_imports k →
  globals k !! "solve_status" = Some (PResults r1) →
  HeatExchangerNotebook.cell_option2_solve fw k = Ok (tt, k') →
  (∃ name r2, globals k !! "opt" = Some (PSolver name)
     ∧ solver fw name [] (m k) = Ok (m k', r2)
     ∧ globals k' !! "result" = Some (PResults r2))
  ∧ globals k' !! "solve_status" = Some (PResults r1)
  ∧ (converged r1 = false →
     raised (HeatExchangerNotebook.cell_option2_test k') = Some AssertionError)
  ∧ (converged r1 = true →
     (raised (HeatExchangerNotebook.cell_option2_test k') = None ↔
      within (m k') area (NFloat 200.26) (NFloat 1e-2)
      ∧ within (m k') tube_outlet_temperature (NFloat 371.27) (NFloat 1e-2))).
Proof.
  intros (Ht & Hs & Hp) Hr H.
  apply cell_option2_solve_Ok in H as (name & m' & r2 & Ho & Hsol & ->).
  assert (Hk : <["result" := PResults r2]> (globals k) !! "solve_status"
               = Some (PResults r1)) by (by rewrite lookup_insert_ne).
  split; [|split; [exact Hk|]].
  - exists name, r2. repeat split; [done | done | apply lookup_insert_eq].
  - apply cell_option2_test_verdict; [|exact Hk].
    unfold testing_imports. cbn [globals]. by rewrite !lookup_insert_ne.
Qed.

(** The first testing cell leaves its three imports and changes nothing
    else; it returns only with a converged results object in
    [solve_status]. *)
Lemma cell_option1_test_Ok k k' :
  HeatExchangerNotebook.cell_option1_test k = Ok (tt, k') →
  m k' = m k
  ∧ testing_imports k'
  ∧ (∀ n, n ∉ imported_names → globals k' !! n = globals k !! n)
  ∧ ∃ r, globals k' !! "solve_status" = Some (PResults r) ∧ converged r = true.
Proof.
  unfold HeatExchangerNotebook.cell_option1_test. intros H.
  apply bind_Ok in H as ([] & ? & ->%import_from_Ok & H).
  apply bind_Ok in H as ([] & ? & ->%import_as_Ok & H).
  apply bind_Ok in H as ([] & k1 & Ha & H).
  pose proof Ha as ->%assert_optimal_ok_Ok.
  nb_inv H. cbn [m globals foldl] in *.
  assert (Hi : testing_imports
    (mkKernel (m k)
       (<["pytest" := PModule "pytest"]>
          (<["SolverStatus" := PImported "pyomo.opt" "SolverStatus"]>
             (<["TerminationCondition" := PImported "pyomo.opt" "TerminationCondition"]>
                (globals k)))))).
  { unfold testing_imports. cbn [globals]. repeat split.
    - rewrite !lookup_insert_ne by done. apply lookup_insert_eq.
    - rewrite lookup_insert_ne by done. apply lookup_insert_eq.
    - apply lookup_insert_eq. }
  repeat split; try apply Hi.
  - intros n Hn. unfold imported_names in Hn.
    rewrite !lookup_insert_ne; [done|..]; intros <-; apply Hn; set_solver.
  - destruct Hi as (Ht & Hs & _).
    apply (assert_optimal_ok_passes "solve_status" _ Ht Hs). by rewrite Ha.
Qed.

(** X4. Heat-exchanger notebook: in a run that got through the first
    testing cell, the Option 2 fixing cell and the second solve, the two
    status assertions of the second testing cell cannot fail, whatever the
    second solve returned: the cell raises nothing exactly when the area
    and the tube outlet temperature are within their tolerances. *)
Lemma option2_status_asserts_pass k0 k2 :
  run_all [HeatExchangerNotebook.cell_option1_test;
           HeatExchangerNotebook.cell_option2_fix fw;
           HeatExchangerNotebook.cell_option2_solve fw] k0 = Ok (tt, k2) →
  (∃ r2, globals k2 !! "result" = Some (PResults r2))
  ∧ (raised (HeatExchangerNotebook.cell_option2_test k2) = None ↔
     within (m k2) area (NFloat 200.26) (NFloat 1e-2)
     ∧ within (m k2) tube_outlet_temperature (NFloat 371.27) (NFloat 1e-2)).
Proof.
  intros H. rewrite run_all_cons in H.
  destruct (HeatExchangerNotebook.cell_option1_test k0) as [[[] k1]|] eqn:H1;
    [|discriminate].
  rewrite run_all_cons in H.
  destruct (HeatExchangerNotebook.cell_option2_fix fw k1) as [[[] kf]|] eqn:Hf;
    [|discriminate].
  rewrite run_all_cons in H.
  destruct (HeatExchangerNotebook.cell_option2_solve fw kf) as [[[] ks]|] eqn:Hs;
    [|discriminate].
  injection H as <-.
  apply cell_option1_test_Ok in H1 as (_ & (Ht & Hst & Hp) & _ & r & Hr & Hc).
  apply cell_option2_fix_Ok in Hf as (h & m1 & m2 & _ & _ & _ & ->).
  apply cell_option2_solve_Ok in Hs as (name & m' & r2 & _ & _ & ->).
  cbn [m globals] in *. split.
  - exists r2. apply lookup_insert_eq.
  - refine (proj2 (cell_option2_test_verdict
                     (mkKernel m' (<["result" := PResults r2]> (globals k1))) r _ _) Hc).
    + unfold testing_imports. cbn [globals]. by rewrite !lookup_insert_ne.
    + cbn [globals]. by rewrite lookup_insert_ne.
Qed.

End Option2Test.

Lemma option2_asserts_read_solve_status_witness :
  (∃ name r2, globals Runs.before_option2_solve !! "opt" = Some (PSolver name)
     ∧ solver Runs.stalling name [] (m Runs.before_option2_solve)
       = Ok (m Runs.after_option2_solve, r2)
     ∧ globals Runs.after_option2_solve !! "result" = Some (PResults r2))
  ∧ globals Runs.after_option2_solve !! "solve_status"
    = Some (PResults (mkResults optimal ok))
  ∧ (converged (mkResults optimal ok) = false →
     raised (HeatExchangerNotebook.cell_option2_test Runs.after_option2_solve)
     = Some AssertionError)
  ∧ (converged (mkResults optimal ok) = true →
     (raised (HeatExchangerNotebook.cell_option2_test Runs.after_option2_solve) = None ↔
      within (m Runs.after_option2_solve) area (NFloat 200.26) (NFloat 1e-2)
      ∧ within (m Runs.after_option2_solve) tube_outlet_temperature
          (NFloat 371.27) (NFloat 1e-2))).
Proof.
  apply (option2_asserts_read_solve_status Runs.stalling
           Runs.before_option2_solve (mkResults optimal ok)
           Runs.after_option2_solve).
  - repeat split; vm_compute; reflexivity.
  - vm_compute. reflexivity.
  - apply after_Ok. vm_compute. reflexivity.
Defined.

(** C6. After each solve the next testing cell asserts that the solver
    reported optimal and ok, so that a solve which did not converge makes
    that cell raise an assertion error.  The second solve of the
    heat-exchanger notebook breaks this: with a solver that stops at the
    iteration limit there (termination condition maxIterations, status
    warning) and leaves the area and the tube outlet temperature within
    the checked tolerances, the object bound to [result] reports the
    failure, the testing cell after that solve raises nothing, and the
    whole notebook runs to its end. *)
Lemma option2_test_passes_after_stalled_solve :
  globals Runs.after_option2_solve !! "result"
    = Some (PResults (mkResults maxIterations warning))
  ∧ raised (HeatExchangerNotebook.cell_option2_test Runs.after_option2_solve) = None
  ∧ raised (run_all (HeatExchangerNotebook.notebook Runs.stalling) fresh_kernel) = None.
Proof. vm_compute. done. Qed.

(** * The notebooks without their testing cells *)

Section Removal.
Variable T : list string.

Lemma agree_refl k : agree T k k.
Proof. by split. Qed.

Lemma agree_trans k1 k2 k3 : agree T k1 k2 → agree T k2 k3 → agree T k1 k3.
Proof.
  intros [Hm1 Hg1] [Hm2 Hg2]. split; [congruence|].
  intros n Hn. by rewrite Hg1, Hg2.
Qed.

Lemma respects_ret {A} (a : A) : respects T (mret a).
Proof. intros k1 k2 a' k1' Ha [= <- <-]. by exists k2. Qed.

Lemma respects_bind {A B} (c : NB A) (f : A → NB B) :
  respects T c → (∀ a, respects T (f a)) → respects T (c ≫= f).
Proof.
  intros Hc Hf k1 k2 b k1' Ha (a & k & H1 & H2)%bind_Ok.
  destruct (Hc _ _ _ _ Ha H1) as (k2m & H1' & Ha').
  destruct (Hf a _ _ _ _ Ha' H2) as (k2' & H2' & Ha'').
  exists k2'. split; [|done]. apply bind_Ok. eauto.
Qed.

Lemma respects_lift {A} (r : Result A) : respects T (lift r).
Proof.
  intros k1 k2 a k1' Ha [-> ->]%lift_Ok. exists k2. split; [|done].
  by apply lift_Ok.
Qed.

Lemma respects_load n : bool_decide (n ∈ T) = false → respects T (load n).
Proof.
  intros Hn k1 k2 o k1' [Hm Hg] [Hl ->]%load_Ok. exists k2. split; [|by split].
  apply load_Ok. by rewrite <-Hg.
Qed.

Lemma respects_store n o : respects T (store n o).
Proof.
  intros k1 k2 [] k1' [Hm Hg] ->%store_Ok. eexists. split; [by apply store_Ok|].
  split; [done|]. intros n' Hn'. cbn [globals].
  destruct (decide (n = n')) as [->|Hne].
  - by rewrite !lookup_insert_eq.
  - rewrite !lookup_insert_ne by done. by apply Hg.
Qed.

Lemma respects_import_from module names : respects T (import_from module names).
Proof.
  induction names as [|n names IH]; simpl; [apply respects_ret|].
  apply respects_bind; [apply respects_store | by intros _].
Qed.

Lemma respects_read_model {A} (f : ConcreteModel → Result A) :
  respects T (read_model f).
Proof.
  intros k1 k2 a k1' [Hm Hg] [Hf ->]%read_model_Ok. exists k2. split; [|by split].
  apply read_model_Ok. by rewrite <-Hm.
Qed.

Lemma respects_update_model f : respects T (update_model f).
Proof.
  intros k1 k2 [] k1' [Hm Hg] (m' & Hf & ->)%update_model_Ok.
  eexists. split; [apply update_model_Ok; exists m'; by rewrite <-Hm|].
  by split.
Qed.

Lemma respects_solve fw opt blk : respects T (solve fw opt blk).
Proof.
  intros k1 k2 o k1' [Hm Hg] (name & m' & r & -> & Hs & -> & ->)%solve_Ok.
  eexists. split; [apply solve_Ok; exists name, m', r; by rewrite <-Hm|].
  by split.
Qed.

Lemma quiet_ret {A} (a : A) : quiet T (mret a).
Proof. intros k a' k' [= <- <-]. apply agree_refl. Qed.

Lemma quiet_bind {A B} (c : NB A) (f : A → NB B) :
  quiet T c → (∀ a, quiet T (f a)) → quiet T (c ≫= f).
Proof.
  intros Hc Hf k b k' (a & k1 & H1 & H2)%bind_Ok.
  eapply agree_trans; [by eapply Hf | by eapply Hc].
Qed.

Lemma quiet_load n : quiet T (load n).
Proof. intros k o k' [_ ->]%load_Ok. apply agree_refl. Qed.

Lemma quiet_lift {A} (r : Result A) : quiet T (lift r).
Proof. intros k a k' [_ ->]%lift_Ok. apply agree_refl. Qed.

Lemma quiet_assert b : quiet T (assert_ b).
Proof. intros k [] k' [_ ->]%assert_Ok. apply agree_refl. Qed.

Lemma quiet_read_model {A} (f : ConcreteModel → Result A) : quiet T (read_model f).
Proof. intros k a k' [_ ->]%read_model_Ok. apply agree_refl. Qed.

Lemma quiet_store n o : bool_decide (n ∈ T) = true → quiet T (store n o).
Proof.
  intros Hn k [] k' ->%store_Ok. split; [done|]. intros n' Hn'. cbn [globals].
  apply lookup_insert_ne. intros ->. congruence.
Qed.

Lemma quiet_import_from module names :
  forallb (λ n, bool_decide (n ∈ T)) names = true →
  quiet T (import_from module names).
Proof.
  induction names as [|n names IH]; simpl; [intros _; apply quiet_ret|].
  intros [Hn Hs]%andb_prop.
  apply quiet_bind; [by apply quiet_store | intros _; by apply IH].
Qed.

Lemma untouched_ret {A} (a : A) : untouched T (mret a).
Proof. by intros k a' k' [= <- <-]. Qed.

Lemma untouched_bind {A B} (c : NB A) (f : A → NB B) :
  untouched T c → (∀ a, untouched T (f a)) → untouched T (c ≫= f).
Proof.
  intros Hc Hf k b k' (a & k1 & H1 & H2)%bind_Ok n Hn.
  by rewrite (Hf _ _ _ _ H2 n Hn), (Hc _ _ _ H1 n Hn).
Qed.

Lemma untouched_load n : untouched T (load n).
Proof. by intros k o k' [_ ->]%load_Ok. Qed.

Lemma untouched_lift {A} (r : Result A) : untouched T (lift r).
Proof. by intros k a k' [_ ->]%lift_Ok. Qed.

Lemma untouched_read_model {A} (f : ConcreteModel → Result A) :
  untouched T (read_model f).
Proof. by intros k a k' [_ ->]%read_model_Ok. Qed.

Lemma untouched_update_model f : untouched T (update_model f).
Proof. by intros k [] k' (m' & _ & ->)%update_model_Ok. Qed.

Lemma untouched_solve fw opt blk : untouched T (solve fw opt blk).
Proof. by intros k o k' (name & m' & r & _ & _ & _ & ->)%solve_Ok. Qed.

Lemma untouched_store n o : bool_decide (n ∈ T) = false → untouched T (store n o).
Proof.
  intros Hn k [] k' ->%store_Ok n' Hn'. cbn [globals].
  apply lookup_insert_ne. intros ->. congruence.
Qed.

Lemma untouched_import_from module names :
  forallb (λ n, negb (bool_decide (n ∈ T))) names = true →
  untouched T (import_from module names).
Proof.
  induction names as [|n names IH]; simpl; [intros _; apply untouched_ret|].
  intros [Hn Hs]%andb_prop. apply negb_true_iff in Hn.
  apply untouched_bind; [by apply untouched_store | intros _; by apply IH].
Qed.

Lemma untouched_run_all cells :
  Forall (untouched T) cells → untouched T (run_all cells).
Proof.
  induction 1 as [|c cells Hc _ IH]; [apply untouched_ret|].
  apply untouched_bind; [done | by intros _].
Qed.

(** Taking out cells that only bind names in [T] from a run in which the
    other cells cannot tell such names apart. *)
Lemma run_without_testing (cells : list (bool * NB unit)) :
  Forall (λ tc : bool * NB unit,
            if tc.1 then quiet T tc.2 else respects T tc.2) cells →
  ∀ k1 k2 k1', agree T k1 k2 → run_all cells.*2 k1 = Ok (tt, k1') →
  ∃ k2', run_all (without_testing cells) k2 = Ok (tt, k2') ∧ agree T k1' k2'.
Proof.
  induction 1 as [|[t c] cells Hc _ IH]; intros k1 k2 k1' Ha H.
  - injection H as <-. by exists k2.
  - rewrite fmap_cons, run_all_cons in H. cbn [snd] in H.
    destruct (c k1) as [[[] k]|] eqn:E; [|discriminate].
    unfold without_testing. destruct t; simpl in Hc.
    + rewrite filter_cons_False by (simpl; congruence).
      apply (IH k k2 k1'); [|done]. eapply agree_trans; [by eapply Hc | done].
    + rewrite filter_cons_True by done. rewrite fmap_cons. cbn [snd].
      destruct (Hc _ _ _ _ Ha E) as (k2m & E2 & Ha2).
      destruct (IH _ _ _ Ha2 H) as (k2' & H2 & Ha').
      exists k2'. split; [|done]. by rewrite run_all_cons, E2.
Qed.

(** The cells that stay bind no name in [T], so the run without the
    tagged cells leaves these names as it found them. *)
Lemma untouched_without_testing (cells : list (bool * NB unit)) :
  Forall (λ tc : bool * NB unit, if tc.1 then True else untouched T tc.2) cells →
  untouched T (run_all (without_testing cells)).
Proof.
  unfold without_testing.
  induction 1 as [|[t c] cells Hc _ IH]; [apply untouched_ret|].
  destruct t; simpl in Hc.
  - by rewrite filter_cons_False by (simpl; congruence).
  - rewrite filter_cons_True by done. rewrite fmap_cons. cbn [snd].
    apply untouched_bind; [done | by intros _].
Qed.

End Removal.

Ltac respects_tac :=
  repeat first
    [ apply respects_import_from
    | apply respects_bind; [|intros ?]
    | apply respects_ret
    | apply respects_lift
    | apply respects_store
    | apply respects_read_model
    | apply respects_update_model
    | apply respects_solve
    | apply respects_load; reflexivity ].

Ltac quiet_tac :=
  repeat first
    [ apply quiet_import_from; reflexivity
    | apply quiet_bind; [|intros ?]
    | apply quiet_ret
    | apply quiet_load
    | apply quiet_lift
    | apply quiet_assert
    | apply quiet_read_model
    | apply quiet_store; reflexivity ].

Ltac untouched_tac :=
  repeat first
    [ apply untouched_import_from; reflexivity
    | apply untouched_bind; [|intros ?]
    | apply untouched_ret
    | apply untouched_lift
    | apply untouched_load
    | apply untouched_read_model
    | apply untouched_update_model
    | apply untouched_solve
    | apply untouched_store; reflexivity ].

Ltac unfold_cells :=
  unfold MixerNotebook.cell_flowsheet, MixerNotebook.cell_mixer_1,
    MixerNotebook.cell_test_DOF_initial, MixerNotebook.cell_fix_case1,
    MixerNotebook.cell_test_DOF_final, MixerNotebook.cell_initialize_1,
    MixerNotebook.cell_solve_1, MixerNotebook.cell_test_solver,
    MixerNotebook.cell_energy_balance, MixerNotebook.cell_test_results_1,
    MixerNotebook.cell_mixer_2, MixerNotebook.cell_DOF_init,
    MixerNotebook.cell_test_DOF_init, MixerNotebook.cell_fix_case2,
    MixerNotebook.cell_initialize_2, MixerNotebook.cell_solve_2,
    MixerNotebook.cell_test_results_2,
    HeatExchangerNotebook.cell_flowsheet,
    HeatExchangerNotebook.cell_heat_exchanger,
    HeatExchangerNotebook.cell_test_DOF_initial,
    HeatExchangerNotebook.cell_fix_shell_inlet,
    HeatExchangerNotebook.cell_fix_tube_inlet,
    HeatExchangerNotebook.cell_option1_fix,
    HeatExchangerNotebook.cell_test_DOF_final,
    HeatExchangerNotebook.cell_option1_solve,
    HeatExchangerNotebook.cell_option1_test,
    HeatExchangerNotebook.cell_option2_fix,
    HeatExchangerNotebook.cell_option2_solve,
    HeatExchangerNotebook.cell_option2_test,
    assert_eq_int, assert_optimal_ok, assert_approx, import_as.

Section RemovalOfTests.
Variable fw : Framework.

Lemma mixer_cells_tagged :
  Forall (λ tc : bool * NB unit,
            if tc.1 then quiet testing_names tc.2 else respects testing_names tc.2)
    (mixer_cells fw).
Proof.
  unfold mixer_cells.
  repeat (apply Forall_cons_2; [cbn [fst snd]|]); [..|apply Forall_nil_2].
  all: unfold_cells.
  all: first [ progress respects_tac | progress quiet_tac ].
Qed.

Lemma heat_exchanger_cells_tagged :
  Forall (λ tc : bool * NB unit,
            if tc.1 then quiet imported_names tc.2 else respects imported_names tc.2)
    (heat_exchanger_cells fw).
Proof.
  unfold heat_exchanger_cells.
  repeat (apply Forall_cons_2; [cbn [fst snd]|]); [..|apply Forall_nil_2].
  all: unfold_cells.
  all: first [ progress respects_tac | progress quiet_tac ].
Qed.

Lemma mixer_cells_untouched :
  Forall (λ tc : bool * NB unit, if tc.1 then True else untouched testing_names tc.2)
    (mixer_cells fw).
Proof.
  unfold mixer_cells.
  repeat (apply Forall_cons_2; [cbn [fst snd]|]); [..|apply Forall_nil_2].
  all: try exact I.
  all: unfold_cells.
  all: untouched_tac.
Qed.

Lemma heat_exchanger_cells_untouched :
  Forall (λ tc : bool * NB unit, if tc.1 then True else untouched imported_names tc.2)
    (heat_exchanger_cells fw).
Proof.
  unfold heat_exchanger_cells.
  repeat (apply Forall_cons_2; [cbn [fst snd]|]); [..|apply Forall_nil_2].
  all: try exact I.
  all: unfold_cells.
  all: untouched_tac.
Qed.

(** X18. Mixer notebook: the cells tagged [testing] and [remove_cell] can be
    taken out.  When the whole notebook runs to its end, so does the
    notebook without them; it ends with the same model and the same
    globals, but for the twelve names that only the testing cells bind
    (their three imports and the nine names of the energy balance), and
    these it leaves as they were before the run. *)
Theorem mixer_testing_cells_removable k k1 :
  run_all (MixerNotebook.notebook fw) k = Ok (tt, k1) →
  ∃ k2, run_all (without_testing (mixer_cells fw)) k = Ok (tt, k2)
    ∧ m k2 = m k1
    ∧ (∀ n, n ∉ testing_names → globals k2 !! n = globals k1 !! n)
    ∧ (∀ n, n ∈ testing_names → globals k2 !! n = globals k !! n).
Proof.
  intros H.
  destruct (run_without_testing testing_names (mixer_cells fw) mixer_cells_tagged
              k k k1 (agree_refl _ k) H) as (k2 & H2 & Hm & Hg).
  exists k2. repeat split; [done | done | |].
  - intros n Hn. symmetry. apply Hg. by apply bool_decide_eq_false.
  - intros n Hn.
    apply (untouched_without_testing testing_names _ mixer_cells_untouched _ _ _ H2).
    by apply bool_decide_eq_true.
Qed.

(** X19. Heat-exchanger notebook: the cells tagged [testing] bind three
    names, those of the imports in the first of them, and leave the model
    alone.  When the whole notebook runs to its end, so does the notebook
    without them; it ends with the same model and the same globals but for
    these three names, which it leaves as they were before the run. *)
Theorem heat_exchanger_testing_cells_removable k k1 :
  run_all (HeatExchangerNotebook.notebook fw) k = Ok (tt, k1) →
  ∃ k2, run_all (without_testing (heat_exchanger_cells fw)) k = Ok (tt, k2)
    ∧ m k2 = m k1
    ∧ (∀ n, n ∉ imported_names → globals k2 !! n = globals k1 !! n)
    ∧ (∀ n, n ∈ imported_names → globals k2 !! n = globals k !! n).
Proof.
  intros H.
  destruct (run_without_testing imported_names (heat_exchanger_cells fw)
              heat_exchanger_cells_tagged k k k1 (agree_refl _ k) H)
    as (k2 & H2 & Hm & Hg).
  exists k2. repeat split; [done | done | |].
  - intros n Hn. symmetry. apply Hg. by apply bool_decide_eq_false.
  - intros n Hn.
    apply (untouched_without_testing imported_names _
             heat_exchanger_cells_untouched _ _ _ H2).
    by apply bool_decide_eq_true.
Qed.

End RemovalOfTests.

(** * Concrete instances

    Each statement above that has a hypothesis, applied to a state of the
    stand-in runs. *)

Import Scenarios.

Ltac ran := apply after_Ok; vm_compute; reflexivity.

Ltac is_steady := unfold steady; apply (bool_decide_unpack _); vm_compute; exact I.

Lemma case1_unconverged_solve_raises_witness :
  raised (run_all [MixerNotebook.cell_solve_1 failing; MixerNotebook.cell_test_solver]
            fresh_kernel) = Some AssertionError.
Proof.
  apply (case1_unconverged_solve_raises failing fresh_kernel ConcreteModel_new
           (mkResults maxIterations warning)); reflexivity.
Defined.

Lemma case2_unconverged_solve_raises_witness :
  raised (run_all [MixerNotebook.cell_solve_2 failing; MixerNotebook.cell_test_solver]
            fresh_kernel) = Some AssertionError.
Proof.
  apply (case2_unconverged_solve_raises failing fresh_kernel ConcreteModel_new
           (mkResults maxIterations warning)); reflexivity.
Defined.

Lemma option1_unconverged_solve_raises_witness :
  raised (run_all [HeatExchangerNotebook.cell_option1_solve failing;
                   HeatExchangerNotebook.cell_option1_test] fresh_kernel)
  = Some AssertionError.
Proof.
  apply (option1_unconverged_solve_raises failing fresh_kernel ConcreteModel_new
           ConcreteModel_new (mkResults maxIterations warning)); reflexivity.
Defined.

Lemma option2_status_asserts_pass_witness :
  (∃ r2, globals option2_stalled !! "result" = Some (PResults r2))
  ∧ (raised (HeatExchangerNotebook.cell_option2_test option2_stalled) = None ↔
     within (m option2_stalled) area (NFloat 200.26) (NFloat 1e-2)
     ∧ within (m option2_stalled) tube_outlet_temperature (NFloat 371.27) (NFloat 1e-2)).
Proof.
  apply (option2_status_asserts_pass Runs.stalling option1_solved). ran.
Defined.

Lemma case1_DOF_final_zero_witness :
  globals case1_counted !! "DOF_final" = Some (PInt 0).
Proof.
  apply (case1_DOF_final_zero Runs.converging (mixer_at 1) mixer_1_built).
  - ran.
  - is_steady.
  - ran.
Defined.

Lemma case2_DOF_final_zero_witness :
  globals case2_counted !! "DOF_final" = Some (PInt 0).
Proof.
  apply (case2_DOF_final_zero (mixer_at 11)).
  - is_steady.
  - ran.
Defined.

Lemma option1_DOF_final_zero_witness :
  globals option1_counted !! "DOF_final" = Some (PInt 0).
Proof.
  apply (option1_DOF_final_zero Runs.converging (heat_exchanger_at 1)
           heat_exchanger_built option1_counted (NFloat 17200)).
  - ran.
  - is_steady.
  - ran.
Defined.

Lemma DOF_initial_rebound_witness :
  globals shell_inlet_fixed !! "DOF_initial" = Some (PInt 7)
  ∧ raised (HeatExchangerNotebook.cell_test_DOF_initial shell_inlet_fixed)
    = Some AssertionError.
Proof.
  apply (DOF_initial_rebound Runs.converging (heat_exchanger_at 1)
           heat_exchanger_built shell_inlet_fixed (NFloat 17200)).
  - ran.
  - is_steady.
  - vm_compute. reflexivity.
  - ran.
Defined.

Lemma case2_fixes_one_pressure_witness :
  let benzene := MixerNotebook.mixer_2 ++ ["benzene_inlet"; "pressure"] ++ ["[0]"] in
  let toluene := MixerNotebook.mixer_2 ++ ["toluene_inlet"; "pressure"] ++ ["[0]"] in
  vars (m case2_fixed) !! benzene
    = (λ _, mkVar (Some (NInt 101325)) true) <$> vars (m (mixer_at 13)) !! benzene
  ∧ vars (m case2_fixed) !! toluene = vars (m (mixer_at 13)) !! toluene.
Proof. apply (case2_fixes_one_pressure (mixer_at 13)). ran. Defined.


Lemma case1_fixing_effect_witness :
  (∀ p v q d, (p, v) ∈ MixerNotebook.case1_fixes → under p q = true →
     vars (m (mixer_at 3)) !! q = Some d →
     vars (m case1_fixed) !! q = Some (mkVar (Some v) true))
  ∧ (∀ q, Forall (λ p, under p q = false) MixerNotebook.case1_fixes.*1 →
       vars (m case1_fixed) !! q = vars (m (mixer_at 3)) !! q)
  ∧ constraints (m case1_fixed) = constraints (m (mixer_at 3)).
Proof. apply (case1_fixing_effect (mixer_at 3)). ran. Defined.

Lemma case2_fixing_effect_witness :
  (∀ p v q d, (p, v) ∈ MixerNotebook.case2_fixes → under p q = true →
     vars (m (mixer_at 13)) !! q = Some d →
     vars (m case2_fixed) !! q = Some (mkVar (Some v) true))
  ∧ (∀ q, Forall (λ p, under p q = false) MixerNotebook.case2_fixes.*1 →
       vars (m case2_fixed) !! q = vars (m (mixer_at 13)) !! q)
  ∧ (∀ q, under MixerNotebook.mixer_1 q = true →
       vars (m case2_fixed) !! q = vars (m (mixer_at 13)) !! q)
  ∧ constraints (m case2_fixed) = constraints (m (mixer_at 13)).
Proof. apply (case2_fixing_effect (mixer_at 13)). ran. Defined.

Lemma option1_fixing_effect_witness :
  ∃ h, htpx Runs.converging (NInt 450) (NInt 101325) = Ok h ∧
  let fs := HeatExchangerNotebook.option1_fixes_all h in
  (∀ p v q d, (p, v) ∈ fs → under p q = true →
     vars (m (heat_exchanger_at 3)) !! q = Some d →
     vars (m option1_fixed) !! q = Some (mkVar (Some v) true))
  ∧ (∀ q, Forall (λ p, under p q = false) fs.*1 →
       vars (m option1_fixed) !! q = vars (m (heat_exchanger_at 3)) !! q)
  ∧ constraints (m option1_fixed) = constraints (m (heat_exchanger_at 3)).
Proof. apply (option1_fixing_effect Runs.converging (heat_exchanger_at 3)). ran. Defined.

Lemma option2_fixing_effect_witness :
  ∃ h, htpx Runs.converging (NInt 360) (NInt 101325) = Ok h ∧
  (∀ q d, under area q = true → vars (m (heat_exchanger_at 9)) !! q = Some d →
     vars (m option2_fixed) !! q = Some (mkVar (value d) false))
  ∧ (∀ q d, under shell_outlet_enth_mol q = true →
       vars (m (heat_exchanger_at 9)) !! q = Some d →
       vars (m option2_fixed) !! q = Some (mkVar (Some h) true))
  ∧ (∀ q, under area q = false → under shell_outlet_enth_mol q = false →
       vars (m option2_fixed) !! q = vars (m (heat_exchanger_at 9)) !! q)
  ∧ globals option2_fixed = globals (heat_exchanger_at 9).
Proof. apply (option2_fixing_effect Runs.converging (heat_exchanger_at 9)). ran. Defined.

Lemma option2_keeps_count_witness :
  degrees_of_freedom [] (m option2_fixed)
  = degrees_of_freedom [] (m (heat_exchanger_at 9)).
Proof.
  apply (option2_keeps_count Runs.converging (heat_exchanger_at 9)).
  - vm_compute. reflexivity.
  - vm_compute. reflexivity.
  - ran.
Defined.

Lemma mixer_testing_cells_removable_witness :
  ∃ k2, run_all (without_testing (mixer_cells Runs.converging)) fresh_kernel = Ok (tt, k2)
    ∧ m k2 = m mixer_done
    ∧ (∀ n, n ∉ testing_names → globals k2 !! n = globals mixer_done !! n)
    ∧ (∀ n, n ∈ testing_names → globals k2 !! n = globals fresh_kernel !! n).
Proof. apply (mixer_testing_cells_removable Runs.converging fresh_kernel). ran. Defined.

Lemma heat_exchanger_testing_cells_removable_witness :
  ∃ k2, run_all (without_testing (heat_exchanger_cells Runs.converging)) fresh_kernel
        = Ok (tt, k2)
    ∧ m k2 = m heat_exchanger_done
    ∧ (∀ n, n ∉ imported_names → globals k2 !! n = globals heat_exchanger_done !! n)
    ∧ (∀ n, n ∈ imported_names → globals k2 !! n = globals fresh_kernel !! n).
Proof.
  apply (heat_exchanger_testing_cells_removable Runs.converging fresh_kernel). ran.
Defined.
